(** * Liquid user-stream data source: connection lifecycle and frame routing

    A shallow embedding of [LiquidAPIUserStreamDataSource]
    (hummingbot/market/liquid/liquid_api_user_stream_data_source.py):
    the supervising loop [listen_for_user_stream] and the heartbeat
    generator [_inner_messages].

    The two coroutines are modelled as one sequential machine.  A control
    point ([pc]) names the [await] at which the task is suspended; the
    environment answers that await with an [event] (a returned value or a
    raised exception); [step] runs the Python code from that await up to the
    next one and reports what the code did as a list of observations
    ([obs]).  A whole run is [run], the fold of [step] over a script of
    environment answers. *)

From Stdlib Require Import List String Ascii Bool Arith ZArith QArith Lia.
Import ListNotations.
Local Close Scope Q_scope.
Local Open Scope string_scope.
Local Open Scope list_scope.

(** ** Python strings

    A [str] is held as the bytes of its UTF-8 form.  Splitting at the ASCII
    character [_] is the same on bytes and on code points.  [str.upper] and
    [str.lower] are Unicode case mappings and are not defined here: they are
    taken as given ([casing], below); on ASCII text they are the byte
    mappings [ascii_upper] and [ascii_lower]. *)

Module PyStr.

(** The case mappings of ASCII: a letter to its other case, every other
    byte to itself. *)
Definition upper_char (c : ascii) : ascii :=
  let n := nat_of_ascii c in
  if andb (Nat.leb 97 n) (Nat.leb n 122) then ascii_of_nat (n - 32) else c.

Definition lower_char (c : ascii) : ascii :=
  let n := nat_of_ascii c in
  if andb (Nat.leb 65 n) (Nat.leb n 90) then ascii_of_nat (n + 32) else c.

Fixpoint map_chars (f : ascii -> ascii) (s : string) : string :=
  match s with
  | EmptyString => EmptyString
  | String c r => String (f c) (map_chars f r)
  end.

Definition ascii_upper (s : string) : string := map_chars upper_char s.
Definition ascii_lower (s : string) : string := map_chars lower_char s.

(** Every byte is below 128. *)
Fixpoint is_ascii (s : string) : bool :=
  match s with
  | EmptyString => true
  | String c r => andb (Nat.ltb (nat_of_ascii c) 128) (is_ascii r)
  end.

(** [s.split(sep)] for a one-character separator: the pieces between the
    occurrences of [sep], empty pieces included; never the empty list. *)
Fixpoint split (sep : ascii) (s : string) : list string :=
  match s with
  | EmptyString => [EmptyString]
  | String c r =>
      if Ascii.eqb c sep then EmptyString :: split sep r
      else match split sep r with
           | [] => [String c EmptyString]
           | piece :: pieces => String c piece :: pieces
           end
  end.

(** [l[-1]]: [None] stands for IndexError. *)
Fixpoint item_last {A : Type} (l : list A) : option A :=
  match l with
  | [] => None
  | [x] => Some x
  | _ :: r => item_last r
  end.

Fixpoint mem_char (c : ascii) (s : string) : bool :=
  match s with
  | EmptyString => false
  | String d r => orb (Ascii.eqb d c) (mem_char c r)
  end.

End PyStr.

(** [str.upper] and [str.lower], as the interpreter has them. *)
Record casing : Type := {
  str_upper : string -> string;
  str_lower : string -> string
}.

(** On ASCII text the two are the ASCII mappings. *)
Definition ascii_faithful (py : casing) : Prop :=
  forall s, PyStr.is_ascii s = true ->
    str_upper py s = PyStr.ascii_upper s /\
    str_lower py s = PyStr.ascii_lower s.

(** ** Decoded JSON values, as [ujson.loads] hands them to Python *)

#[warnings="-register-all"]
Inductive json : Type :=
| JNull
| JBool (b : bool)
| JInt (n : Z)
| JReal (q : Q)
| JStr (s : string)
| JArr (items : list json)
| JObj (fields : list (string * json)).

Module PyDict.

(** [d.get(key, None)] on the field list of a dict; the first binding of a
    key is the one the dict holds. *)
Fixpoint get (key : string) (fields : list (string * json)) : option json :=
  match fields with
  | [] => None
  | (k, v) :: rest => if String.eqb k key then Some v else get key rest
  end.

End PyDict.

(** Python truth value of a decoded value, with [None] for a missing one
    ([not x] is [negb (truthy x)]). *)
Definition truthy (v : option json) : bool :=
  match v with
  | None => false
  | Some JNull => false
  | Some (JBool b) => b
  | Some (JInt n) => negb (Z.eqb n 0)
  | Some (JReal q) => negb (Qeq_bool q 0%Q)
  | Some (JStr s) => negb (String.eqb s EmptyString)
  | Some (JArr items) => match items with [] => false | _ => true end
  | Some (JObj fields) => match fields with [] => false | _ => true end
  end.

(** [x == 'updated'] *)
Definition eq_str (v : option json) (lit : string) : bool :=
  match v with
  | Some (JStr s) => String.eqb s lit
  | _ => false
  end.

(** ** Exceptions *)

Inductive exn : Type :=
| CancelledError      (* asyncio.CancelledError *)
| TimeoutError        (* asyncio.TimeoutError *)
| ConnectionClosed    (* websockets.exceptions.ConnectionClosed *)
| ValueError
| KeyError
| AttributeError
| TypeError
| IndexError
| OSError.

(** A computation that returns or raises. *)
Definition result (A : Type) : Type := (exn + A)%type.
Definition ok {A : Type} (a : A) : result A := inr a.
Definition raise {A : Type} (e : exn) : result A := inl e.
Definition bind {A B : Type} (r : result A) (k : A -> result B) : result B :=
  match r with
  | inl e => inl e
  | inr a => k a
  end.
Notation "x <- r ;; k" := (bind r (fun x => k))
  (at level 61, r at next level, right associativity).

(** [[f(x) for x in l]]: the first raise aborts the whole comprehension. *)
Fixpoint comprehension {A B : Type} (f : A -> result B) (l : list A)
  : result (list B) :=
  match l with
  | [] => ok []
  | x :: r => y <- f x ;; ys <- comprehension f r ;; ok (y :: ys)
  end.

(** ** A JSON reader

    [ujson.loads] itself is a parameter of the model below.  This reader
    covers the JSON the venue's frames are written in (objects, arrays,
    strings with one-character escapes, decimal numbers without exponent,
    the three literals) and is what the worked examples decode their frames
    with. *)

Module Json.

Definition dquote : ascii := "034"%char.
Definition backslash : ascii := "092"%char.

(** [quoted s] is [s] between double quotes. *)
Definition quoted (s : string) : string :=
  String dquote (s ++ String dquote EmptyString)%string.

Definition is_space (c : ascii) : bool :=
  let n := nat_of_ascii c in
  orb (orb (Nat.eqb n 32) (Nat.eqb n 9)) (orb (Nat.eqb n 10) (Nat.eqb n 13)).

Fixpoint skip_space (s : string) : string :=
  match s with
  | String c r => if is_space c then skip_space r else s
  | EmptyString => s
  end.

Definition unescape (c : ascii) : option ascii :=
  if Ascii.eqb c "n" then Some "010"%char
  else if Ascii.eqb c "t" then Some "009"%char
  else if Ascii.eqb c "r" then Some "013"%char
  else if Ascii.eqb c "b" then Some "008"%char
  else if Ascii.eqb c "f" then Some "012"%char
  else if orb (Ascii.eqb c dquote) (orb (Ascii.eqb c backslash) (Ascii.eqb c "/"))
  then Some c
  else None.

(** The characters of a string literal after its opening quote, and what
    follows the closing quote. *)
Fixpoint read_chars (s : string) : option (string * string) :=
  match s with
  | EmptyString => None
  | String c r =>
      if Ascii.eqb c dquote then Some (EmptyString, r)
      else if Ascii.eqb c backslash then
        match r with
        | EmptyString => None
        | String e r' =>
            match unescape e, read_chars r' with
            | Some d, Some (body, tail) => Some (String d body, tail)
            | _, _ => None
            end
        end
      else
        match read_chars r with
        | Some (body, tail) => Some (String c body, tail)
        | None => None
        end
  end.

Definition digit (c : ascii) : option Z :=
  let n := nat_of_ascii c in
  if andb (Nat.leb 48 n) (Nat.leb n 57) then Some (Z.of_nat (n - 48)) else None.

(** Leading digits of [s] folded into [acc]; how many there were. *)
Fixpoint read_digits (s : string) (acc : Z) (count : nat)
  : Z * nat * string :=
  match s with
  | EmptyString => (acc, count, s)
  | String c r =>
      match digit c with
      | Some d => read_digits r (10 * acc + d)%Z (S count)
      | None => (acc, count, s)
      end
  end.

Definition read_number (s : string) : option (json * string) :=
  let (negative, body) :=
    match s with
    | String "-" r => (true, r)
    | _ => (false, s)
    end in
  let sign := if negative then (-1)%Z else 1%Z in
  match read_digits body 0%Z 0 with
  | (_, O, _) => None
  | (whole, S _, String "." frac) =>
      match read_digits frac 0%Z 0 with
      | (_, O, _) => None
      | (part, S k, tail) =>
          let scale := Pos.pow 10 (Pos.of_nat (S k)) in
          Some (JReal (Qmake (sign * (whole * Zpos scale + part)) scale), tail)
      end
  | (whole, S _, tail) => Some (JInt (sign * whole), tail)
  end.

Fixpoint strip (word s : string) : option string :=
  match word, s with
  | EmptyString, _ => Some s
  | String a w, String b r => if Ascii.eqb a b then strip w r else None
  | String _ _, EmptyString => None
  end.

(** [d[key] = v] on a field list: a key keeps its place and takes the new
    value. *)
Fixpoint set_item (key : string) (v : json) (fields : list (string * json))
  : list (string * json) :=
  match fields with
  | [] => [(key, v)]
  | (k, old) :: rest =>
      if String.eqb k key then (k, v) :: rest
      else (k, old) :: set_item key v rest
  end.

Fixpoint read_value (fuel : nat) (s : string) : option (json * string) :=
  match fuel with
  | O => None
  | S fuel' =>
      match skip_space s with
      | String "{" r =>
          match skip_space r with
          | String "}" tail => Some (JObj [], tail)
          | r' => read_members fuel' r' []
          end
      | String "[" r =>
          match skip_space r with
          | String "]" tail => Some (JArr [], tail)
          | r' => read_items fuel' r' []
          end
      | String c r as s' =>
          if Ascii.eqb c dquote then
            match read_chars r with
            | Some (body, tail) => Some (JStr body, tail)
            | None => None
            end
          else
            match strip "true" s', strip "false" s', strip "null" s' with
            | Some tail, _, _ => Some (JBool true, tail)
            | _, Some tail, _ => Some (JBool false, tail)
            | _, _, Some tail => Some (JNull, tail)
            | _, _, _ => read_number s'
            end
      | EmptyString => None
      end
  end

with read_members (fuel : nat) (s : string) (acc : list (string * json))
  : option (json * string) :=
  match fuel with
  | O => None
  | S fuel' =>
      match skip_space s with
      | String c r =>
          if Ascii.eqb c dquote then
            match read_chars r with
            | Some (key, after_key) =>
                match skip_space after_key with
                | String ":" after_colon =>
                    match read_value fuel' after_colon with
                    | Some (v, after_value) =>
                        let acc' := set_item key v acc in
                        match skip_space after_value with
                        | String "," more => read_members fuel' more acc'
                        | String "}" tail => Some (JObj acc', tail)
                        | _ => None
                        end
                    | None => None
                    end
                | _ => None
                end
            | None => None
            end
          else None
      | EmptyString => None
      end
  end

with read_items (fuel : nat) (s : string) (acc : list json)
  : option (json * string) :=
  match fuel with
  | O => None
  | S fuel' =>
      match read_value fuel' s with
      | Some (v, after_value) =>
          match skip_space after_value with
          | String "," more => read_items fuel' more (acc ++ [v])
          | String "]" tail => Some (JArr (acc ++ [v]), tail)
          | _ => None
          end
      | None => None
      end
  end.

(** A whole text: one value, then nothing but blanks; ValueError
    otherwise. *)
Definition loads (text : string) : result json :=
  match read_value (S (String.length text)) text with
  | Some (v, tail) =>
      match skip_space tail with
      | EmptyString => ok v
      | _ => raise ValueError
      end
  | None => raise ValueError
  end.

End Json.

(** ** Collaborators outside this file

    [Constants], [LiquidAuth], [ujson], [LiquidAPIOrderBookDataSource] and
    [LiquidOrderBook] live elsewhere; what the data source reads from them
    is taken as given. *)

(** A format string, already cut into literal text and [{name}] fields. *)
Inductive piece : Type :=
| Lit (text : string)
| Field (name : string).

Definition template : Type := list piece.

Fixpoint kwarg (name : string) (kwargs : list (string * string))
  : option string :=
  match kwargs with
  | [] => None
  | (k, v) :: rest => if String.eqb k name then Some v else kwarg name rest
  end.

(** [t.format(name=value, ...)]: a field that names no keyword raises
    KeyError. *)
Fixpoint format (t : template) (kwargs : list (string * string))
  : result string :=
  match t with
  | [] => ok EmptyString
  | Lit text :: r => rest <- format r kwargs ;; ok (text ++ rest)%string
  | Field name :: r =>
      match kwarg name kwargs with
      | None => raise KeyError
      | Some v => rest <- format r kwargs ;; ok (v ++ rest)%string
      end
  end.

(** hummingbot.market.liquid.constants.Constants, the members read here. *)
Record Constants : Type := {
  BAEE_WS_URL : string;
  WS_AUTH_REQUEST_EVENT : string;
  WS_PUSHER_SUBSCRIBE_EVENT : string;
  WS_USER_ACCOUNTS_SUBSCRIPTION : template;
  MESSAGE_TIMEOUT : Q;
  PING_TIMEOUT : Q
}.

(** The active-markets data frame, cut down to the one column read here:
    one entry per row, the index label (trading pair) and the
    ['quoted_currency'] cell, which holds a string or something else (a
    NaN, say).  Labels may repeat. *)
Definition markets : Type := list (string * json).

(** What [.loc] hands back: the cell, or a Series of cells. *)
Inductive looked_up : Type :=
| Scalar (cell : json)
| Series (cells : list json).

(** The cells of the rows labelled [label], in row order. *)
Fixpoint cells_of (df : markets) (label : string) : list json :=
  match df with
  | [] => []
  | (k, v) :: rest =>
      if String.eqb k label then v :: cells_of rest label
      else cells_of rest label
  end.

(** [df.loc[label, 'quoted_currency']]: KeyError without such a row, the
    cell of the one row, a Series when the label repeats. *)
Definition loc (df : markets) (label : string) : result looked_up :=
  match cells_of df label with
  | [] => raise KeyError
  | [cell] => ok (Scalar cell)
  | cells => ok (Series cells)
  end.

(** [quoted_currency.lower()]: only a string has the method. *)
Definition lower_of (py : casing) (quoted_currency : looked_up)
  : result string :=
  match quoted_currency with
  | Scalar (JStr s) => ok (str_lower py s)
  | _ => raise AttributeError
  end.

(** The canonical event handed to the output queue. *)
Record OrderBookMessage : Type := {
  trading_pair : string;
  timestamp : Q;
  payload : json
}.

(** Modelled from the spec: [LiquidOrderBook.diff_message_from_exchange]
    (liquid_order_book.py) is the Event Decoder, "decode(rawBody, timestamp,
    {tradingPair}) -> CanonicalEvent", and a Canonical Event is
    "{trading_pair: string, timestamp: float, payload: decoded-body}"; the
    decoder is "assumed total for well-formed bodies". *)
Definition diff_message_from_exchange
  (msg : json) (ts : Q) (metadata_trading_pair : string) : OrderBookMessage :=
  {| trading_pair := metadata_trading_pair; timestamp := ts; payload := msg |}.

(** The instance: [self._liquid_auth.get_ws_auth_data()] and
    [self._trading_pairs]. *)
Record LiquidAPIUserStreamDataSource : Type := {
  get_ws_auth_data : json;
  _trading_pairs : list string
}.

(** ** What the task does, and what the world answers *)

(** One entry per call that leaves the coroutine (and one, [Opened], for the
    moment the [async with] body is entered).  [output] is taken to be an
    unbounded [asyncio.Queue], on which [put_nowait] does not raise; the
    exit of [async with websockets.connect(...)] awaits [ws.close()], and
    [ws.close()] on a closed transport returns without effect. *)
Inductive obs : Type :=
| Connect (url : string)        (* websockets.connect(url) is awaited *)
| Opened                        (* it returned: [ws] is the open transport *)
| Send (request : json)         (* await ws.send(ujson.dumps(request)) *)
| GetMarkets                    (* await get_active_exchange_markets() *)
| Recv (timeout : Q)            (* await wait_for(ws.recv(), timeout) *)
| Ping                          (* await ws.ping() *)
| WaitPong (timeout : Q)        (* await wait_for(pong_waiter, timeout) *)
| Close                         (* await ws.close() *)
| Put (msg : OrderBookMessage)  (* output.put_nowait(msg) *)
| LogWarning
| LogError
| Sleep (delay : Q).            (* await asyncio.sleep(delay) *)

(** The answer to the pending await. *)
Inductive event : Type :=
| Returns                           (* returns; the value is not looked at *)
| Markets (df : markets)            (* get_active_exchange_markets() -> df *)
| Frame (raw : string) (now : Q)    (* recv() -> raw; time.time() -> now *)
| Raises (e : exn).

(** How a block is left. *)
Inductive completion : Type :=
| Normal
| Raising (e : exn).

(** The await at which the generator [_inner_messages] is suspended. *)
Inductive inner_pc : Type :=
| AtRecv                                (* l.120 wait_for(ws.recv()) *)
| AtPing                                (* l.124 ws.ping() *)
| AtPong                                (* l.125 wait_for(pong_waiter) *)
| AtGenClose (c : completion).          (* l.134 ws.close() in finally *)

(** The await at which the task is suspended. *)
Inductive pc : Type :=
| AtConnect                             (* l.60  websockets.connect *)
| AtSendAuth                            (* l.68  ws.send(auth) *)
| AtGetMarkets                          (* l.70  get_active_exchange_markets *)
| AtSendSub (rest : list (string * looked_up))
                                        (* l.85  ws.send(subscribe); pairs left *)
| Inner (g : inner_pc)                  (* l.86  inside the generator *)
| AtExitClose (c : completion)          (* l.60  exit of the async with *)
| AtSleep                               (* l.107 asyncio.sleep(30.0) *)
| Ended (e : exn).                      (* the task finished by raising e *)

Coercion Inner : inner_pc >-> pc.

(** What the generator comes back with when it is resumed. *)
Inductive resumed : Type :=
| Awaiting (g : inner_pc) (done : list obs)   (* suspended at its next await *)
| Yielded (msg : event)                       (* l.121 yield msg *)
| Finished (c : completion).                  (* returned, or raised *)

(** ** The data source *)

Section DataSource.

Variable K : Constants.
Variable self : LiquidAPIUserStreamDataSource.
(** [str.upper] and [str.lower]. *)
Variable py : casing.
(** [ujson.loads]: the decoded value, or ValueError. *)
Variable loads : string -> result json.

(** *** [_inner_messages], lines 117-134 *)

(** l.118-120: the head of [while True]. *)
Definition await_recv : resumed :=
  Awaiting AtRecv [Recv (MESSAGE_TIMEOUT K)].

(** l.128-134: an exception leaves the [while]; the outer [except] clauses,
    then [finally]. *)
Definition inner_except (e : exn) : resumed :=
  match e with
  | TimeoutError => Awaiting (AtGenClose Normal) [LogWarning; Close]
  | ConnectionClosed => Awaiting (AtGenClose Normal) [Close]
  | _ => Awaiting (AtGenClose (Raising e)) [Close]
  end.

(** The generator, resumed at [g] with the answer to its await.  A
    TimeoutError of [recv] is caught at l.122; one of the ping or of the
    pong is re-raised at l.126-127.  An exception of [ws.close()] takes the
    place of the one the [finally] was entered with. *)
Definition _inner_messages (g : inner_pc) (answer : event) : resumed :=
  match g, answer with
  | AtRecv, Raises TimeoutError => Awaiting AtPing [Ping]
  | AtRecv, Raises e => inner_except e
  | AtRecv, msg => Yielded msg
  | AtPing, Raises e => inner_except e
  | AtPing, _ => Awaiting AtPong [WaitPong (PING_TIMEOUT K)]
  | AtPong, Raises e => inner_except e
  | AtPong, _ => await_recv
  | AtGenClose _, Raises e => Finished (Raising e)
  | AtGenClose c, _ => Finished c
  end.

(** *** [listen_for_user_stream], lines 58-107 *)

(** l.64-67 *)
Definition auth_request : json :=
  JObj [("event", JStr (WS_AUTH_REQUEST_EVENT K));
        ("data", get_ws_auth_data self)].

(** l.77-84; the loop variable [trading_pair] is bound and not used.  The
    argument [quoted_currency.lower()] is evaluated before [format] is
    called. *)
Definition subscribe_request (trading_pair : string)
  (quoted_currency : looked_up) : result json :=
  lowered <- lower_of py quoted_currency ;;
  channel <- format (WS_USER_ACCOUNTS_SUBSCRIPTION K)
               [("quoted_currency", lowered)] ;;
  ok (JObj [("event", JStr (WS_PUSHER_SUBSCRIBE_EVENT K));
            ("data", JObj [("channel", JStr channel)])]).

(** l.71-74: an answer of another type has no [.loc]. *)
Definition quoted_currencies (answer : event) : result (list looked_up) :=
  comprehension
    (fun trading_pair =>
       match answer with
       | Markets active_markets_df => loc active_markets_df trading_pair
       | _ => raise AttributeError
       end)
    (_trading_pairs self).

(** l.92: [diff_msg.get('channel').split('_')[-1].upper()] *)
Definition pair_of_channel (channel : option json) : result string :=
  match channel with
  | Some (JStr name) =>
      match PyStr.item_last (PyStr.split "_" name) with
      | Some segment => ok (str_upper py segment)
      | None => raise IndexError
      end
  | _ => raise AttributeError
  end.

(** l.87-101, the body of the [async for]: the message to enqueue, if
    any. *)
Definition classify (raw_msg : string) (now : Q)
  : result (option OrderBookMessage) :=
  diff_msg <- loads raw_msg ;;
  match diff_msg with
  | JObj fields =>
      let event_type := PyDict.get "event" fields in
      if eq_str event_type "updated" then
        trading_pair <- pair_of_channel (PyDict.get "channel" fields) ;;
        ok (Some (diff_message_from_exchange diff_msg now trading_pair))
      else if negb (truthy event_type) then raise ValueError
      else ok None
  | _ => raise AttributeError
  end.

(** l.102-107, the [except] clauses. *)
Definition handler (e : exn) : pc * list obs :=
  match e with
  | CancelledError => (Ended CancelledError, [])
  | _ => (AtSleep, [LogError; Sleep 30%Q])
  end.

(** Leaving the [async with] block: its exit awaits [ws.close()]. *)
Definition leave (c : completion) : pc * list obs :=
  (AtExitClose c, [Close]).

(** After that exit: the next turn of [while True], or the handler. *)
Definition after_exit (c : completion) : pc * list obs :=
  match c with
  | Normal => (AtConnect, [Connect (BAEE_WS_URL K)])
  | Raising e => handler e
  end.

(** l.86-101, one turn of the [async for] on what the generator came back
    with.  After the body the generator is resumed behind its [yield] and
    awaits the next frame.  When the body raises, the generator stays
    parked at [yield] and the block is left at once; the event loop
    finalises the generator later, in a task of its own, and its
    [ws.close()] then meets the transport that the exit of the
    [async with] closes: that call is not part of this trace. *)
Definition async_for (r : resumed) : pc * list obs :=
  match r with
  | Awaiting g done => (Inner g, done)
  | Finished c => leave c
  | Yielded (Frame raw_msg now) =>
      match classify raw_msg now with
      | inl e => leave (Raising e)
      | inr (Some diff_msg) =>
          (Inner AtRecv, [Put diff_msg; Recv (MESSAGE_TIMEOUT K)])
      | inr None => (Inner AtRecv, [Recv (MESSAGE_TIMEOUT K)])
      end
  | Yielded _ => leave (Raising TypeError)   (* [ujson.loads] of a non-string *)
  end.

(** l.76-86: the [for] loop at the head of a turn; when the pairs are used
    up the [async for] starts the generator. *)
Definition subscribe_loop (todo : list (string * looked_up))
  : pc * list obs :=
  match todo with
  | [] => async_for await_recv
  | (trading_pair, quoted_currency) :: rest =>
      match subscribe_request trading_pair quoted_currency with
      | inl e => leave (Raising e)
      | inr request => (AtSendSub rest, [Send request])
      end
  end.

(** *** One await *)

Definition step (p : pc) (answer : event) : pc * list obs :=
  match p, answer with
  | AtConnect, Raises e => handler e
  | AtConnect, _ => (AtSendAuth, [Opened; Send auth_request])
  | AtSendAuth, Raises e => leave (Raising e)
  | AtSendAuth, _ => (AtGetMarkets, [GetMarkets])
  | AtGetMarkets, Raises e => leave (Raising e)
  | AtGetMarkets, _ =>
      match quoted_currencies answer with
      | inl e => leave (Raising e)
      | inr currencies =>
          subscribe_loop (combine (_trading_pairs self) currencies)
      end
  | AtSendSub _, Raises e => leave (Raising e)
  | AtSendSub rest, _ => subscribe_loop rest
  | Inner g, _ => async_for (_inner_messages g answer)
  | AtExitClose _, Raises e => handler e
  | AtExitClose c, _ => after_exit c
  | AtSleep, Raises e => (Ended e, [])
  | AtSleep, _ => (AtConnect, [Connect (BAEE_WS_URL K)])
  | Ended e, _ => (Ended e, [])
  end.

(** *** A run: the answers are consumed one per await *)

Fixpoint run (p : pc) (script : list event) : pc * list obs :=
  match script with
  | [] => (p, [])
  | answer :: rest =>
      let (p1, done1) := step p answer in
      let (p2, done2) := run p1 rest in
      (p2, done1 ++ done2)
  end.

(** Calling the coroutine: the first turn of [while True] awaits the
    connection. *)
Definition listen_for_user_stream (script : list event) : pc * list obs :=
  let (p, done) := run AtConnect script in
  (p, Connect (BAEE_WS_URL K) :: done).

End DataSource.

(** ** Reading a trace *)

(** What reached the output queue, oldest first. *)
Fixpoint queue (t : list obs) : list OrderBookMessage :=
  match t with
  | [] => []
  | Put msg :: r => msg :: queue r
  | _ :: r => queue r
  end.

(** The requests written to the socket, oldest first. *)
Fixpoint requests (t : list obs) : list json :=
  match t with
  | [] => []
  | Send request :: r => request :: requests r
  | _ :: r => requests r
  end.

Definition is_sleep (o : obs) : bool :=
  match o with Sleep _ => true | _ => false end.
Definition is_connect (o : obs) : bool :=
  match o with Connect _ => true | _ => false end.
Definition is_close (o : obs) : bool :=
  match o with Close => true | _ => false end.

Definition sleeps (t : list obs) : nat := List.length (filter is_sleep t).
Definition connects (t : list obs) : nat := List.length (filter is_connect t).
Definition close_calls (t : list obs) : nat := List.length (filter is_close t).

(** The transport is open from [Opened] to the first [Close] after it;
    [ws.close()] on a closed transport does nothing.  [closes_on_open b t]
    counts the [Close] calls of [t] that find the transport open, [b] telling
    whether it is open when [t] starts. *)
Fixpoint closes_on_open (open : bool) (t : list obs) : nat :=
  match t with
  | [] => 0
  | Opened :: r => closes_on_open true r
  | Close :: r => (if open then 1 else 0) + closes_on_open false r
  | _ :: r => closes_on_open open r
  end.

Fixpoint open_after (open : bool) (t : list obs) : bool :=
  match t with
  | [] => open
  | Opened :: r => open_after true r
  | Close :: r => open_after false r
  | _ :: r => open_after open r
  end.

(** The control points at which [ws] is open. *)
Definition transport_open (p : pc) : bool :=
  match p with
  | AtSendAuth | AtGetMarkets | AtSendSub _ => true
  | Inner AtRecv | Inner AtPing | Inner AtPong => true
  | _ => false
  end.

Definition suspended (p : pc) : bool :=
  match p with Ended _ => false | _ => true end.

(** Does every [Connect] of [t] come right after a [Sleep] of [delay]?
    [prev] is the entry before [t]. *)
Fixpoint connect_follows_sleep (delay : Q) (prev : option obs) (t : list obs)
  : bool :=
  match t with
  | [] => true
  | o :: r =>
      andb
        (match o, prev with
         | Connect _, Some (Sleep d) => Qeq_bool d delay
         | Connect _, _ => false
         | _, _ => true
         end)
        (connect_follows_sleep delay (Some o) r)
  end.

(** What one answer can contribute to the queue: the message of a frame
    that classifies as an update. *)
Definition forwarded (py : casing) (loads : string -> result json)
  (answer : event) : list OrderBookMessage :=
  match answer with
  | Frame raw_msg now =>
      match classify py loads raw_msg now with
      | inr (Some msg) => [msg]
      | _ => []
      end
  | _ => []
  end.

(** The frames classified as updates along a run, in the order they were
    classified: those delivered to the pending [recv]. *)
Fixpoint updates (K : Constants) (self : LiquidAPIUserStreamDataSource)
  (py : casing) (loads : string -> result json) (p : pc) (script : list event)
  : list OrderBookMessage :=
  match script with
  | [] => []
  | answer :: rest =>
      (match p with Inner AtRecv => forwarded py loads answer | _ => [] end)
        ++ updates K self py loads (fst (step K self py loads p answer)) rest
  end.

(** [subseq l1 l2]: [l1] is [l2] with some entries left out. *)
Inductive subseq {A : Type} : list A -> list A -> Prop :=
| subseq_nil : subseq [] []
| subseq_skip : forall x l1 l2, subseq l1 l2 -> subseq l1 (x :: l2)
| subseq_keep : forall x l1 l2, subseq l1 l2 -> subseq (x :: l1) (x :: l2).

(** ** The spec's wording of two rules *)

(** "[<pieces>] joined by [sep]" *)
Fixpoint join (sep : ascii) (pieces : list string) : string :=
  match pieces with
  | [] => EmptyString
  | [x] => x
  | x :: r => (x ++ String sep (join sep r))%string
  end.

(** "The last [_]-delimited segment of the channel name": it holds no
    underscore, and the name is it alone or ends with an underscore and
    it. *)
Definition last_underscore_segment (name segment : string) : Prop :=
  PyStr.mem_char "_" segment = false /\
  (name = segment \/
   exists front, name = (front ++ String "_" segment)%string).

(** "A channel of the form <event-family>_<quote-currency lowercase>
    <pair-lowercase>" *)
Definition channel_of_pair (py : casing)
  (family quoted_currency trading_pair : string) : string :=
  (family ++ "_" ++ str_lower py quoted_currency
     ++ str_lower py trading_pair)%string.

(** The subscribe request that names [channel]. *)
Definition subscription (K : Constants) (channel : string) : json :=
  JObj [("event", JStr (WS_PUSHER_SUBSCRIBE_EVENT K));
        ("data", JObj [("channel", JStr channel)])].

(** Every field of the channel template is [{quoted_currency}]. *)
Definition template_closed (t : template) : bool :=
  forallb (fun x => match x with
                    | Lit _ => true
                    | Field name => String.eqb name "quoted_currency"
                    end) t.

(** ** Sample values

    The theorems hold for every [Constants], instance and decoder; these
    values feed the worked examples. *)

Definition sample_constants : Constants := {|
  BAEE_WS_URL := "wss://tap.liquid.com/app/LiquidTapClient";
  WS_AUTH_REQUEST_EVENT := "quoine:auth_request";
  WS_PUSHER_SUBSCRIBE_EVENT := "pusher:subscribe";
  WS_USER_ACCOUNTS_SUBSCRIPTION :=
    [Lit "user_account_"; Field "quoted_currency"; Lit "_orders"];
  MESSAGE_TIMEOUT := 30%Q;
  PING_TIMEOUT := 10%Q
|}.

Definition sample_auth : json := JObj [("headers", JObj [])].

Definition sample_source : LiquidAPIUserStreamDataSource :=
  {| get_ws_auth_data := sample_auth; _trading_pairs := ["ETHUSD"; "BTCUSD"] |}.

(** A configured pair the venue does not list. *)
Definition unlisted_source : LiquidAPIUserStreamDataSource :=
  {| get_ws_auth_data := sample_auth; _trading_pairs := ["ETHUSD"; "XYZUSD"] |}.

Definition no_pairs_source : LiquidAPIUserStreamDataSource :=
  {| get_ws_auth_data := sample_auth; _trading_pairs := [] |}.

Definition sample_markets : markets :=
  [("BTCUSD", JStr "USD"); ("ETHUSD", JStr "USD"); ("ETHBTC", JStr "BTC")].

(** A case mapping that is the ASCII one throughout; the strings of the
    examples are ASCII. *)
Definition ascii_casing : casing :=
  {| str_upper := PyStr.ascii_upper; str_lower := PyStr.ascii_lower |}.

(** One JSON object with string members. *)
Fixpoint members_text (fields : list (string * string)) : string :=
  match fields with
  | [] => EmptyString
  | [(k, v)] => (Json.quoted k ++ ":" ++ Json.quoted v)%string
  | (k, v) :: r =>
      (Json.quoted k ++ ":" ++ Json.quoted v ++ "," ++ members_text r)%string
  end.

Definition object_text (fields : list (string * string)) : string :=
  ("{" ++ members_text fields ++ "}")%string.

Definition update_frame : string :=
  object_text [("event", "updated"); ("channel", "user_executions_cash_ethusd")].
Definition heartbeat_frame : string := object_text [("event", "heartbeat")].
Definition no_event_frame : string := object_text [("channel", "user_executions_cash_ethusd")].
Definition empty_event_frame : string := object_text [("event", EmptyString)].
Definition no_channel_frame : string := object_text [("event", "updated")].

(** ** Scripts

    Stretches of answers the statements below are about. *)

(** A quiet spell: no frame within the message timeout, [ws.ping()]
    returns, and the pong is there within the ping timeout. *)
Definition quiet_spell : list event := [Raises TimeoutError; Returns; Returns].

Fixpoint quiet_spells (n : nat) : list event :=
  match n with
  | O => []
  | S k => quiet_spell ++ quiet_spells k
  end.

(** What the generator does over one quiet spell, and over [n]. *)
Definition keepalive (K : Constants) : list obs :=
  [Ping; WaitPong (PING_TIMEOUT K); Recv (MESSAGE_TIMEOUT K)].

Fixpoint keepalives (K : Constants) (n : nat) : list obs :=
  match n with
  | O => []
  | S k => keepalive K ++ keepalives K k
  end.

(** A lost heartbeat: no frame within the message timeout, the ping goes
    out, no pong within the ping timeout; then the two pending [close()]
    return. *)
Definition lost_heartbeat : list event :=
  [Raises TimeoutError; Returns; Raises TimeoutError; Returns; Returns].

(** Cancellation delivered to the pending await; any [close()] awaited on
    the way out returns. *)
Definition cancellation : list event := [Raises CancelledError; Returns; Returns].

(** The opening of a session: the connection is made, the authentication
    request is written, the markets table [df] comes back, and [n] subscribe
    requests are written. *)
Definition session_opening (df : markets) (n : nat) : list event :=
  [Returns; Returns; Markets df] ++ repeat Returns n.

(** ** Two claims in the spec's words *)

(** "For every trading pair in the configured list with a resolvable quote
    currency a subscribe request is sent": each configured pair that [df]
    resolves has its request among those written during the opening. *)
Definition subscribes_each_resolvable_pair
  (K : Constants) (self : LiquidAPIUserStreamDataSource) (py : casing)
  (loads : string -> result json) (df : markets) : Prop :=
  forall tp qc request,
    In tp (_trading_pairs self) ->
    loc df tp = inr qc ->
    subscribe_request K py tp qc = inr request ->
    In (Send request)
       (snd (run K self py loads AtConnect
               (session_opening df (List.length (_trading_pairs self))))).

(** "Every subscribe request names a channel built from both the lower-cased
    quote currency and the lower-cased trading pair." *)
Definition channel_names_pair (K : Constants) (py : casing) : Prop :=
  forall tp qc request,
    subscribe_request K py tp (Scalar (JStr qc)) = inr request ->
    exists family, request = subscription K (channel_of_pair py family qc tp).

(** ** More readings of a trace, and more scripts *)

Definition is_log_error (o : obs) : bool :=
  match o with LogError => true | _ => false end.

Definition errors (t : list obs) : nat := List.length (filter is_log_error t).

(** The order a session imposes on the calls: [Opened] only when no
    transport is open, writes, reads, pings and enqueues only on an open
    transport, [Connect] and [Sleep] only without one.  [open] tells whether
    a transport is open when [t] starts. *)
Fixpoint disciplined (open : bool) (t : list obs) : bool :=
  match t with
  | [] => true
  | o :: r =>
      match o with
      | Opened => andb (negb open) (disciplined true r)
      | Close => disciplined false r
      | Connect _ | Sleep _ => andb (negb open) (disciplined open r)
      | Send _ | GetMarkets | Recv _ | Ping | WaitPong _ | Put _ =>
          andb open (disciplined open r)
      | LogWarning | LogError => disciplined open r
      end
  end.

(** Is a CancelledError on its way out through the pending [close()]? *)
Definition cancel_pending (p : pc) : bool :=
  match p with
  | Inner (AtGenClose (Raising CancelledError)) => true
  | AtExitClose (Raising CancelledError) => true
  | _ => false
  end.

(** Connection attempts that fail with the exceptions [es], each followed
    by the return of the sleep. *)
Definition connect_failures (es : list exn) : list event :=
  flat_map (fun e => [Raises e; Returns]) es.

(** What the loop does about one failed attempt. *)
Definition retry (K : Constants) : list obs :=
  [LogError; Sleep 30%Q; Connect (BAEE_WS_URL K)].

(** A session of [n] subscriptions whose first [recv] finds the connection
    closed; the two [close()] return. *)
Definition dropped_session (df : markets) (n : nat) : list event :=
  session_opening df n ++ [Raises ConnectionClosed; Returns; Returns].

Fixpoint dropped_sessions (df : markets) (n : nat) (count : nat) : list event :=
  match count with
  | O => []
  | S k => dropped_session df n ++ dropped_sessions df n k
  end.

(** Answers under which a session lives on: quiet spells, and frames whose
    classification does not raise. *)
Inductive healthy (py : casing) (loads : string -> result json)
  : list event -> Prop :=
| healthy_nil : healthy py loads []
| healthy_quiet : forall rest,
    healthy py loads rest -> healthy py loads (quiet_spell ++ rest)
| healthy_frame : forall raw_msg now outcome rest,
    classify py loads raw_msg now = inr outcome ->
    healthy py loads rest -> healthy py loads (Frame raw_msg now :: rest).

(** ** The class logger, lines 27-33

    [_lausds_logger] is a class attribute, [None] until the first call of
    [logger]; [getLogger_calls] counts the calls of [logging.getLogger] the
    class has made. *)

Record class_state (Logger : Type) : Type := {
  _lausds_logger : option Logger;
  getLogger_calls : nat
}.
Arguments _lausds_logger {Logger} _.
Arguments getLogger_calls {Logger} _.

(** l.27: the class as it is defined. *)
Definition class_defined (Logger : Type) : class_state Logger :=
  {| _lausds_logger := None; getLogger_calls := 0 |}.

(** l.30-33; [module_logger] is what [logging.getLogger(__name__)]
    returns. *)
Definition logger {Logger : Type} (module_logger : Logger)
  (cls : class_state Logger) : Logger * class_state Logger :=
  match _lausds_logger cls with
  | None =>
      (module_logger,
       {| _lausds_logger := Some module_logger;
          getLogger_calls := S (getLogger_calls cls) |})
  | Some cached => (cached, cls)
  end.

(** [n] calls in a row: what each returned, and the class afterwards. *)
Fixpoint logger_calls {Logger : Type} (module_logger : Logger) (n : nat)
  (cls : class_state Logger) : list Logger * class_state Logger :=
  match n with
  | O => ([], cls)
  | S k =>
      let (l, cls1) := logger module_logger cls in
      let (ls, cls2) := logger_calls module_logger k cls1 in
      (l :: ls, cls2)
  end.

(** ** Where a subscribe request comes from *)

(** [x] is a configured pair with what an answered markets table of [seen]
    holds for it. *)
Definition looked_up_in (self : LiquidAPIUserStreamDataSource)
  (seen : list event) (x : string * looked_up) : Prop :=
  In (fst x) (_trading_pairs self) /\
  exists df, In (Markets df) seen /\ loc df (fst x) = inr (snd x).

(** The pairs still to be subscribed all come from such a table. *)
Definition pending_looked_up (self : LiquidAPIUserStreamDataSource)
  (seen : list event) (p : pc) : Prop :=
  match p with
  | AtSendSub rest => Forall (looked_up_in self seen) rest
  | _ => True
  end.

(** [request] is the subscribe request for the channel that the template
    gives for the lower-cased quote currency of a configured pair, as a
    markets table of [seen] has it. *)
Definition built_from_quote_currency (K : Constants)
  (self : LiquidAPIUserStreamDataSource) (py : casing)
  (seen : list event) (request : json) : Prop :=
  exists tp qc channel df,
    In tp (_trading_pairs self) /\
    In (Markets df) seen /\
    loc df tp = inr (Scalar (JStr qc)) /\
    format (WS_USER_ACCOUNTS_SUBSCRIPTION K)
      [("quoted_currency", str_lower py qc)] = inr channel /\
    request = subscription K channel.

(** * Properties *)

(** ** Splitting a channel name *)

Lemma append_assoc (a b c : string) :
  ((a ++ b) ++ c)%string = (a ++ (b ++ c))%string.
Proof. induction a as [|x a IH]; simpl; [reflexivity | now rewrite IH]. Qed.

Lemma length_append (a b : string) :
  String.length (a ++ b) = String.length a + String.length b.
Proof. induction a as [|x a IH]; simpl; [reflexivity | now rewrite IH]. Qed.

Lemma split_not_nil (sep : ascii) (s : string) : PyStr.split sep s <> [].
Proof.
  destruct s as [|c r]; simpl; [discriminate|].
  destruct (Ascii.eqb c sep); [discriminate|].
  destruct (PyStr.split sep r); discriminate.
Qed.

Lemma join_cons (sep : ascii) (x : string) (l : list string) :
  l <> [] -> join sep (x :: l) = (x ++ String sep (join sep l))%string.
Proof. destruct l; [congruence | reflexivity]. Qed.

(** Joining the pieces gives the string back. *)
Lemma join_split (sep : ascii) (s : string) :
  join sep (PyStr.split sep s) = s.
Proof.
  induction s as [|c r IH]; [reflexivity|].
  simpl PyStr.split.
  destruct (Ascii.eqb_spec c sep) as [->|Hne].
  - rewrite join_cons by apply split_not_nil. simpl. now rewrite IH.
  - pose proof (split_not_nil sep r) as Hnil.
    destruct (PyStr.split sep r) as [|piece pieces]; [congruence|].
    destruct pieces as [|next more].
    + simpl in *. now rewrite IH.
    + change (join sep (String c piece :: next :: more))
        with (String c (piece ++ String sep (join sep (next :: more))))%string.
      now rewrite <- IH.
Qed.

(** No piece holds the separator. *)
Lemma split_no_sep (sep : ascii) (s : string) :
  Forall (fun piece => PyStr.mem_char sep piece = false) (PyStr.split sep s).
Proof.
  induction s as [|c r IH]; simpl.
  - now constructor.
  - destruct (Ascii.eqb c sep) eqn:Hc.
    + now constructor.
    + destruct (PyStr.split sep r) as [|piece pieces].
      * constructor; [simpl; now rewrite Hc | constructor].
      * inversion IH as [|? ? Hpiece Hrest]; subst.
        constructor; [simpl; now rewrite Hc | assumption].
Qed.

Lemma item_last_some {A : Type} (l : list A) :
  l <> [] -> exists x, PyStr.item_last l = Some x /\ In x l.
Proof.
  induction l as [|a r IH]; [congruence|]. intros _.
  destruct r as [|b r'].
  - exists a. simpl. auto.
  - destruct IH as [x [Hx Hin]]; [discriminate|].
    exists x. split; [exact Hx | now right].
Qed.

Lemma item_last_join (sep : ascii) (l : list string) (segment : string) :
  PyStr.item_last l = Some segment ->
  join sep l = segment \/
  exists front, join sep l = (front ++ String sep segment)%string.
Proof.
  induction l as [|a r IH]; [discriminate|].
  destruct r as [|b r'].
  - simpl. intros [= ->]. now left.
  - intros Hlast. right.
    change (PyStr.item_last (a :: b :: r')) with (PyStr.item_last (b :: r')) in Hlast.
    rewrite join_cons by discriminate.
    destruct (IH Hlast) as [-> | [front ->]].
    + now exists a.
    + exists (a ++ String sep front)%string.
      rewrite append_assoc. reflexivity.
Qed.

(** [name.split('_')[-1]] is the last underscore-delimited segment. *)
Lemma split_last_segment (name : string) :
  exists segment,
    PyStr.item_last (PyStr.split "_" name) = Some segment /\
    last_underscore_segment name segment.
Proof.
  destruct (item_last_some (PyStr.split "_" name) (split_not_nil _ _))
    as [segment [Hlast Hin]].
  exists segment. split; [exact Hlast|]. split.
  - pose proof (split_no_sep "_" name) as Hall.
    rewrite Forall_forall in Hall. now apply Hall.
  - pose proof (item_last_join "_" _ _ Hlast) as Hjoin.
    now rewrite join_split in Hjoin.
Qed.

(** ** The machine *)

Section Machine.

Variable K : Constants.
Variable self : LiquidAPIUserStreamDataSource.
Variable py : casing.
Variable loads : string -> result json.

Lemma run_cons (p : pc) (answer : event) (rest : list event) :
  run K self py loads p (answer :: rest) =
  (fst (run K self py loads (fst (step K self py loads p answer)) rest),
   snd (step K self py loads p answer)
     ++ snd (run K self py loads (fst (step K self py loads p answer)) rest)).
Proof.
  simpl. destruct (step K self py loads p answer) as [p1 done1]. simpl.
  destruct (run K self py loads p1 rest) as [p2 done2]. reflexivity.
Qed.

Lemma run_app (p : pc) (s1 s2 : list event) :
  run K self py loads p (s1 ++ s2) =
  (fst (run K self py loads (fst (run K self py loads p s1)) s2),
   snd (run K self py loads p s1)
     ++ snd (run K self py loads (fst (run K self py loads p s1)) s2)).
Proof.
  revert p. induction s1 as [|answer s1 IH]; intros p.
  - simpl. now destruct (run K self py loads p s2).
  - rewrite <- app_comm_cons, !run_cons, IH. simpl.
    now rewrite app_assoc.
Qed.

(** A frame whose [event] is falsy is never an update. *)
Lemma falsy_not_updated (v : option json) :
  truthy v = false -> eq_str v "updated" = false.
Proof.
  destruct v as [[| | | |s| |]|]; simpl; try reflexivity.
  destruct (String.eqb_spec s "updated") as [->|]; [discriminate | reflexivity].
Qed.

Lemma classify_object (raw_msg : string) (now : Q) (fields : list (string * json)) :
  loads raw_msg = inr (JObj fields) ->
  classify py loads raw_msg now =
  (if eq_str (PyDict.get "event" fields) "updated" then
     trading_pair <- pair_of_channel py (PyDict.get "channel" fields) ;;
     ok (Some (diff_message_from_exchange (JObj fields) now trading_pair))
   else if negb (truthy (PyDict.get "event" fields)) then raise ValueError
   else ok None).
Proof. intros H. unfold classify. rewrite H. reflexivity. Qed.

End Machine.

(** ** Classifying one frame *)

Lemma ascii_casing_faithful : ascii_faithful ascii_casing.
Proof. intros s _. split; reflexivity. Qed.

(** C2.  A frame whose [event] is ['updated'] and whose [channel] is the
    string [name] is enqueued as a message whose trading pair is the last
    underscore-delimited segment of [name], upper-cased by [str.upper], and
    the task goes back to waiting for a frame; for the channel
    ['user_executions_cash_ethusd'] the trading pair is ['ETHUSD']
    ([str.upper] being the ASCII mapping on ASCII text).  The message is
    what the decoder makes of the body, the receipt time and that trading
    pair. *)
Theorem updated_frame_trading_pair
  (K : Constants) (self : LiquidAPIUserStreamDataSource)
  (py : casing) (loads : string -> result json)
  (raw_msg : string) (now : Q) (fields : list (string * json)) (name : string) :
  loads raw_msg = inr (JObj fields) ->
  PyDict.get "event" fields = Some (JStr "updated") ->
  PyDict.get "channel" fields = Some (JStr name) ->
  exists segment msg,
    last_underscore_segment name segment /\
    msg = diff_message_from_exchange (JObj fields) now (str_upper py segment) /\
    trading_pair msg = str_upper py segment /\
    step K self py loads AtRecv (Frame raw_msg now)
      = (Inner AtRecv, [Put msg; Recv (MESSAGE_TIMEOUT K)]) /\
    (ascii_faithful py ->
     name = "user_executions_cash_ethusd" -> trading_pair msg = "ETHUSD").
Proof.
  intros Hloads Hevent Hchannel.
  destruct (split_last_segment name) as [segment [Hlast Hseg]].
  exists segment,
    (diff_message_from_exchange (JObj fields) now (str_upper py segment)).
  split; [exact Hseg|]. split; [reflexivity|]. split; [reflexivity|]. split.
  - simpl step. rewrite (classify_object py loads _ _ _ Hloads).
    rewrite Hevent, Hchannel. simpl. rewrite Hlast. reflexivity.
  - intros Hpy ->. vm_compute in Hlast. injection Hlast as <-.
    simpl. now rewrite (proj1 (Hpy "ethusd" eq_refl)).
Qed.

Lemma updated_frame_trading_pair_witness :
  exists segment msg,
    last_underscore_segment "user_executions_cash_ethusd" segment /\
    msg = diff_message_from_exchange
            (JObj [("event", JStr "updated");
                   ("channel", JStr "user_executions_cash_ethusd")])
            5%Q (str_upper ascii_casing segment) /\
    step sample_constants sample_source ascii_casing Json.loads AtRecv
      (Frame update_frame 5%Q)
      = (Inner AtRecv, [Put msg; Recv (MESSAGE_TIMEOUT sample_constants)]) /\
    trading_pair msg = "ETHUSD".
Proof.
  destruct (updated_frame_trading_pair sample_constants sample_source
              ascii_casing Json.loads update_frame 5%Q
              [("event", JStr "updated");
               ("channel", JStr "user_executions_cash_ethusd")]
              "user_executions_cash_ethusd" eq_refl eq_refl eq_refl)
    as [segment [msg [Hseg [Hmsg [_ [Hstep Hpair]]]]]].
  exists segment, msg.
  split; [exact Hseg|]. split; [exact Hmsg|]. split; [exact Hstep|].
  exact (Hpair ascii_casing_faithful eq_refl).
Defined.

(** C3.  A frame whose decoded body has no [event], or an empty one (a
    value Python takes for false: the empty string, and also null, false,
    zero, an empty list or object), makes the classification raise
    ValueError: nothing is enqueued for it, the [async with] block is left
    and the transport closed, and after the error is logged and the 30
    seconds slept the loop awaits a new connection. *)
Theorem frame_without_event_fails
  (K : Constants) (self : LiquidAPIUserStreamDataSource)
  (py : casing) (loads : string -> result json)
  (raw_msg : string) (now : Q) (fields : list (string * json)) :
  loads raw_msg = inr (JObj fields) ->
  truthy (PyDict.get "event" fields) = false ->
  classify py loads raw_msg now = inl ValueError /\
  forwarded py loads (Frame raw_msg now) = [] /\
  step K self py loads AtRecv (Frame raw_msg now)
    = (AtExitClose (Raising ValueError), [Close]) /\
  run K self py loads AtRecv [Frame raw_msg now; Returns; Returns]
    = (AtConnect, [Close; LogError; Sleep 30%Q; Connect (BAEE_WS_URL K)]).
Proof.
  intros Hloads Hfalsy.
  assert (Hc : classify py loads raw_msg now = inl ValueError).
  { rewrite (classify_object py loads _ _ _ Hloads).
    rewrite (falsy_not_updated _ Hfalsy), Hfalsy. reflexivity. }
  repeat split.
  - exact Hc.
  - simpl. now rewrite Hc.
  - simpl. now rewrite Hc.
  - simpl. now rewrite Hc.
Qed.

Lemma frame_without_event_fails_witness :
  classify ascii_casing Json.loads no_event_frame 6%Q = inl ValueError /\
  forwarded ascii_casing Json.loads (Frame no_event_frame 6%Q) = [] /\
  step sample_constants sample_source ascii_casing Json.loads AtRecv
    (Frame no_event_frame 6%Q)
    = (AtExitClose (Raising ValueError), [Close]) /\
  run sample_constants sample_source ascii_casing Json.loads AtRecv
    [Frame no_event_frame 6%Q; Returns; Returns]
    = (AtConnect,
       [Close; LogError; Sleep 30%Q; Connect (BAEE_WS_URL sample_constants)]).
Proof.
  apply (frame_without_event_fails sample_constants sample_source ascii_casing Json.loads
           no_event_frame 6%Q
           [("channel", JStr "user_executions_cash_ethusd")]);
    reflexivity.
Defined.

(** C8.  A frame whose [event] is present, not empty and not ['updated']
    (['heartbeat'], say) enqueues nothing and changes nothing: the task is
    back at the same await on the same transport, and the rest of the run is
    the run it would have been without the frame, after one more
    [recv]. *)
Theorem other_event_ignored
  (K : Constants) (self : LiquidAPIUserStreamDataSource)
  (py : casing) (loads : string -> result json)
  (raw_msg : string) (now : Q) (fields : list (string * json)) :
  loads raw_msg = inr (JObj fields) ->
  truthy (PyDict.get "event" fields) = true ->
  eq_str (PyDict.get "event" fields) "updated" = false ->
  forwarded py loads (Frame raw_msg now) = [] /\
  step K self py loads AtRecv (Frame raw_msg now)
    = (Inner AtRecv, [Recv (MESSAGE_TIMEOUT K)]) /\
  forall rest,
    run K self py loads AtRecv (Frame raw_msg now :: rest)
    = (fst (run K self py loads AtRecv rest),
       Recv (MESSAGE_TIMEOUT K) :: snd (run K self py loads AtRecv rest)).
Proof.
  intros Hloads Htruthy Hother.
  assert (Hc : classify py loads raw_msg now = inr None).
  { rewrite (classify_object py loads _ _ _ Hloads).
    rewrite Hother, Htruthy. reflexivity. }
  assert (Hs : step K self py loads AtRecv (Frame raw_msg now)
               = (Inner AtRecv, [Recv (MESSAGE_TIMEOUT K)])).
  { simpl. now rewrite Hc. }
  repeat split.
  - simpl. now rewrite Hc.
  - exact Hs.
  - intros rest. rewrite run_cons, Hs. reflexivity.
Qed.

Lemma other_event_ignored_witness :
  forwarded ascii_casing Json.loads (Frame heartbeat_frame 6%Q) = [] /\
  step sample_constants sample_source ascii_casing Json.loads AtRecv
    (Frame heartbeat_frame 6%Q)
    = (Inner AtRecv, [Recv (MESSAGE_TIMEOUT sample_constants)]) /\
  forall rest,
    run sample_constants sample_source ascii_casing Json.loads AtRecv
      (Frame heartbeat_frame 6%Q :: rest)
    = (fst (run sample_constants sample_source ascii_casing Json.loads AtRecv rest),
       Recv (MESSAGE_TIMEOUT sample_constants)
         :: snd (run sample_constants sample_source ascii_casing Json.loads AtRecv rest)).
Proof.
  apply (other_event_ignored sample_constants sample_source ascii_casing Json.loads
           heartbeat_frame 6%Q [("event", JStr "heartbeat")]);
    reflexivity.
Defined.

(** C10.  A frame whose [event] is ['updated'] and which has no [channel]
    makes the classification raise AttributeError ([None] has no [split]);
    the frame is not skipped: the [async with] block is left, the error is
    logged, 30 seconds are slept and the loop awaits a new connection. *)
Theorem updated_without_channel_fails
  (K : Constants) (self : LiquidAPIUserStreamDataSource)
  (py : casing) (loads : string -> result json)
  (raw_msg : string) (now : Q) (fields : list (string * json)) :
  loads raw_msg = inr (JObj fields) ->
  PyDict.get "event" fields = Some (JStr "updated") ->
  PyDict.get "channel" fields = None ->
  classify py loads raw_msg now = inl AttributeError /\
  forwarded py loads (Frame raw_msg now) = [] /\
  step K self py loads AtRecv (Frame raw_msg now)
    = (AtExitClose (Raising AttributeError), [Close]) /\
  run K self py loads AtRecv [Frame raw_msg now; Returns; Returns]
    = (AtConnect, [Close; LogError; Sleep 30%Q; Connect (BAEE_WS_URL K)]).
Proof.
  intros Hloads Hevent Hchannel.
  assert (Hc : classify py loads raw_msg now = inl AttributeError).
  { rewrite (classify_object py loads _ _ _ Hloads).
    rewrite Hevent, Hchannel. reflexivity. }
  repeat split.
  - exact Hc.
  - simpl. now rewrite Hc.
  - simpl. now rewrite Hc.
  - simpl. now rewrite Hc.
Qed.

Lemma updated_without_channel_fails_witness :
  classify ascii_casing Json.loads no_channel_frame 6%Q = inl AttributeError /\
  forwarded ascii_casing Json.loads (Frame no_channel_frame 6%Q) = [] /\
  step sample_constants sample_source ascii_casing Json.loads AtRecv
    (Frame no_channel_frame 6%Q)
    = (AtExitClose (Raising AttributeError), [Close]) /\
  run sample_constants sample_source ascii_casing Json.loads AtRecv
    [Frame no_channel_frame 6%Q; Returns; Returns]
    = (AtConnect,
       [Close; LogError; Sleep 30%Q; Connect (BAEE_WS_URL sample_constants)]).
Proof.
  apply (updated_without_channel_fails sample_constants sample_source ascii_casing Json.loads no_channel_frame 6%Q [("event", JStr "updated")]);
    reflexivity.
Defined.

(** ** The heartbeat *)

(** C7.  When no frame arrives within the message timeout and the pong of
    the ping sent then arrives within the ping timeout, the generator goes
    back to waiting for a frame, however often this happens in a row:
    nothing is closed, nothing is slept, no connection is made. *)
Theorem quiet_spells_keep_session
  (K : Constants) (self : LiquidAPIUserStreamDataSource)
  (py : casing) (loads : string -> result json) (n : nat) :
  run K self py loads AtRecv (quiet_spells n) = (Inner AtRecv, keepalives K n) /\
  close_calls (keepalives K n) = 0 /\
  connects (keepalives K n) = 0 /\
  sleeps (keepalives K n) = 0.
Proof.
  induction n as [|n [IHrun [IHclose [IHconnect IHsleep]]]].
  - repeat split.
  - repeat split.
    + change (quiet_spells (S n)) with (quiet_spell ++ quiet_spells n).
      rewrite run_app. simpl fst. rewrite IHrun. reflexivity.
    + exact IHclose.
    + exact IHconnect.
    + exact IHsleep.
Qed.

(** C1, as the code has it.  When the pong does not arrive within the ping
    timeout, the generator logs a warning, closes the transport and ends
    without an exception; the [async with] block is left normally, and the
    next turn of the loop awaits a new connection at once: the 30-second
    sleep, which belongs to the exception handler, is not taken. *)
Theorem lost_heartbeat_reconnects_at_once
  (K : Constants) (self : LiquidAPIUserStreamDataSource)
  (py : casing) (loads : string -> result json) :
  step K self py loads AtPong (Raises TimeoutError)
    = (Inner (AtGenClose Normal), [LogWarning; Close]) /\
  run K self py loads AtRecv lost_heartbeat
    = (AtConnect,
       [Ping; WaitPong (PING_TIMEOUT K); LogWarning; Close; Close;
        Connect (BAEE_WS_URL K)]) /\
  sleeps (snd (run K self py loads AtRecv lost_heartbeat)) = 0.
Proof. repeat split. Qed.

(** C1, as stated, fails: after a lost heartbeat the run is back at the
    connect step, and that [Connect] does not follow a 30-second sleep. *)
Lemma lost_heartbeat_delay_counterexample :
  fst (run sample_constants sample_source ascii_casing Json.loads AtRecv lost_heartbeat)
    = AtConnect /\
  connect_follows_sleep 30%Q None
    (snd (run sample_constants sample_source ascii_casing Json.loads AtRecv lost_heartbeat))
    <> true.
Proof. split; [reflexivity | vm_compute; discriminate]. Qed.

(** ** Cancellation *)

(** C6, as the code has it.  A CancelledError delivered at any await,
    when every [close()] awaited on the way out returns: the task ends with
    that CancelledError, calling nothing but [ws.close()] on the way, so the
    handler's sleep is not invoked and no connection is made.  With the
    transport open, [close()] is called once when the cancellation lands
    while the session is set up (by the exit of the [async with]) and twice
    when it lands inside the generator (by its [finally], which finds the
    transport open, then by the exit of the [async with], which finds it
    closed).  When instead the first [close()] awaited on the way out raises
    another exception, that exception takes the place of the cancellation:
    it is logged, the 30-second sleep is taken and the task goes on. *)
Theorem cancellation_propagates
  (K : Constants) (self : LiquidAPIUserStreamDataSource)
  (py : casing) (loads : string -> result json) (p : pc) :
  suspended p = true ->
  (fst (run K self py loads p cancellation) = Ended CancelledError /\
   Forall (fun o => o = Close) (snd (run K self py loads p cancellation)) /\
   sleeps (snd (run K self py loads p cancellation)) = 0 /\
   connects (snd (run K self py loads p cancellation)) = 0 /\
   (transport_open p = true ->
    close_calls (snd (run K self py loads p cancellation))
      = match p with Inner _ => 2 | _ => 1 end /\
    closes_on_open true (snd (run K self py loads p cancellation)) = 1 /\
    open_after true (snd (run K self py loads p cancellation)) = false)) /\
  (forall e,
     e <> CancelledError ->
     transport_open p = true ->
     suspended
       (fst (run K self py loads p
               [Raises CancelledError; Raises e; Returns])) = true /\
     sleeps
       (snd (run K self py loads p
               [Raises CancelledError; Raises e; Returns])) = 1 /\
     errors
       (snd (run K self py loads p
               [Raises CancelledError; Raises e; Returns])) = 1).
Proof.
  intros Hp. split.
  - destruct p as [| | | rest | [| | | c] | c | | e];
      try discriminate Hp;
      try (destruct c as [|e]);
      simpl; repeat split;
      try discriminate; try lia; auto.
  - intros e He Hopen.
    destruct p as [| | | rest | [| | | c] | c | | e0]; try discriminate Hopen;
      destruct e; try congruence; repeat split.
Qed.

Lemma cancellation_propagates_witness :
  fst (run sample_constants sample_source ascii_casing Json.loads AtRecv
         cancellation) = Ended CancelledError /\
  close_calls
    (snd (run sample_constants sample_source ascii_casing Json.loads AtRecv
            cancellation)) = 2 /\
  sleeps
    (snd (run sample_constants sample_source ascii_casing Json.loads AtRecv
            [Raises CancelledError; Raises OSError; Returns])) = 1.
Proof.
  destruct (cancellation_propagates sample_constants sample_source
              ascii_casing Json.loads AtRecv eq_refl)
    as [[Hend [_ [_ [_ Hclose]]]] Hraise].
  split; [exact Hend|]. split.
  - exact (proj1 (Hclose eq_refl)).
  - refine (proj1 (proj2 (Hraise OSError _ eq_refl))). discriminate.
Defined.

(** C6, as stated, fails: cancelled while a frame is awaited, with the
    [close()] of the generator's [finally] raising OSError, the task does
    not end with the CancelledError and the 30-second sleep is invoked; and
    when both [close()] return, [close()] has been called twice. *)
Lemma cancellation_lost_counterexample :
  fst (run sample_constants sample_source ascii_casing Json.loads AtRecv
         [Raises CancelledError; Raises OSError; Returns])
    <> Ended CancelledError /\
  sleeps
    (snd (run sample_constants sample_source ascii_casing Json.loads AtRecv
            [Raises CancelledError; Raises OSError; Returns])) = 1 /\
  close_calls
    (snd (run sample_constants sample_source ascii_casing Json.loads AtRecv
            cancellation)) = 2.
Proof. split; [discriminate | split; reflexivity]. Qed.

(** ** The output queue *)

Lemma queue_app (t1 t2 : list obs) : queue (t1 ++ t2) = queue t1 ++ queue t2.
Proof.
  induction t1 as [|o t1 IH]; [reflexivity|].
  destruct o; simpl; now rewrite IH.
Qed.

Lemma subseq_nil_l {A : Type} (l : list A) : subseq [] l.
Proof. induction l; now constructor. Qed.

Lemma subseq_refl {A : Type} (l : list A) : subseq l l.
Proof. induction l; now constructor. Qed.

Lemma subseq_app {A : Type} (a1 a2 b1 b2 : list A) :
  subseq a1 a2 -> subseq b1 b2 -> subseq (a1 ++ b1) (a2 ++ b2).
Proof.
  intros Ha Hb. induction Ha; simpl; [assumption | now constructor ..].
Qed.

Section Queue.

Variable K : Constants.
Variable self : LiquidAPIUserStreamDataSource.
Variable py : casing.
Variable loads : string -> result json.

Lemma handler_queue (e : exn) : queue (snd (handler e)) = [].
Proof. now destruct e. Qed.

Lemma inner_except_queue (e : exn) :
  queue (snd (async_for K py loads (inner_except e))) = [].
Proof. now destruct e. Qed.

Lemma subscribe_loop_queue (todo : list (string * looked_up)) :
  queue (snd (subscribe_loop K py loads todo)) = [].
Proof.
  destruct todo as [|[tp qc] rest]; [reflexivity|]. simpl.
  now destruct (subscribe_request K py tp qc).
Qed.

(** Only a frame delivered to the pending [recv] can put a message on the
    queue, and then the one message it classifies to. *)
Lemma step_queue (p : pc) (answer : event) :
  queue (snd (step K self py loads p answer)) =
  match p with Inner AtRecv => forwarded py loads answer | _ => [] end.
Proof.
  destruct p as [| | | rest | [| | | c] | c | | e].
  - destruct answer; simpl; auto using handler_queue.
  - destruct answer; reflexivity.
  - destruct answer as [| df | raw now | e]; simpl; try reflexivity;
      destruct (quoted_currencies _ _); simpl;
      auto using subscribe_loop_queue.
  - destruct answer; simpl; auto using subscribe_loop_queue.
  - destruct answer as [| df | raw now | e]; simpl; try reflexivity.
    + destruct (classify py loads raw now) as [e|[msg|]]; reflexivity.
    + destruct e; reflexivity.
  - destruct answer; simpl; auto using inner_except_queue.
  - destruct answer; simpl; auto using inner_except_queue.
  - destruct answer; reflexivity.
  - destruct answer, c; simpl; auto using handler_queue.
  - destruct answer; reflexivity.
  - destruct answer; reflexivity.
Qed.

Lemma forwarded_at_most_one (answer : event) :
  List.length (forwarded py loads answer) <= 1.
Proof.
  destruct answer as [| df | raw now | e]; simpl; try lia.
  destruct (classify py loads raw now) as [e|[msg|]]; simpl; lia.
Qed.

Lemma queue_run (p : pc) (script : list event) :
  queue (snd (run K self py loads p script)) = updates K self py loads p script.
Proof.
  revert p. induction script as [|answer rest IH]; intros p; [reflexivity|].
  rewrite run_cons. simpl snd. rewrite queue_app, step_queue, IH.
  reflexivity.
Qed.

Lemma updates_subseq (p : pc) (script : list event) :
  subseq (updates K self py loads p script) (flat_map (forwarded py loads) script).
Proof.
  revert p. induction script as [|answer rest IH]; intros p.
  - constructor.
  - simpl. apply subseq_app; [|apply IH].
    destruct p as [| | | todo | [| | | c] | c | | e];
      (apply subseq_refl || apply subseq_nil_l).
Qed.

End Queue.

(** C5.  Over a whole run, reconnects included, the output queue holds
    the messages of the frames classified as updates, in the order in which
    they were classified; each answer of the environment contributes at most
    one message, and the queue is a subsequence of the messages of the
    frames in the order of their arrival: none is moved and none comes
    twice. *)
Theorem queue_follows_frame_order
  (K : Constants) (self : LiquidAPIUserStreamDataSource)
  (py : casing) (loads : string -> result json) (script : list event) :
  queue (snd (listen_for_user_stream K self py loads script))
    = updates K self py loads AtConnect script /\
  subseq (queue (snd (listen_for_user_stream K self py loads script)))
         (flat_map (forwarded py loads) script) /\
  (forall answer, List.length (forwarded py loads answer) <= 1).
Proof.
  assert (Hq : queue (snd (listen_for_user_stream K self py loads script))
               = updates K self py loads AtConnect script).
  { unfold listen_for_user_stream.
    pose proof (queue_run K self py loads AtConnect script) as H.
    destruct (run K self py loads AtConnect script) as [p t]. exact H. }
  split; [exact Hq|]. split.
  - rewrite Hq. apply updates_subseq.
  - apply forwarded_at_most_one.
Qed.

(** ** Case analysis of a step *)

(** The [for] loop either starts the generator, writes one request, or
    leaves the block with an exception. *)
Lemma subscribe_loop_shape (K : Constants) (py : casing)
  (loads : string -> result json)
  (todo : list (string * looked_up)) :
  subscribe_loop K py loads todo = (Inner AtRecv, [Recv (MESSAGE_TIMEOUT K)]) \/
  (exists rest request,
     subscribe_loop K py loads todo = (AtSendSub rest, [Send request])) \/
  (exists e, subscribe_loop K py loads todo = (AtExitClose (Raising e), [Close])).
Proof.
  destruct todo as [|[tp qc] rest]; [now left|]. simpl.
  destruct (subscribe_request K py tp qc) as [e|request].
  - right. right. now exists e.
  - right. left. now exists rest, request.
Qed.

Ltac loop_cases :=
  try match goal with
      | |- context [subscribe_loop ?K ?py ?loads ?todo] =>
          let H := fresh "Hloop" in
          destruct (subscribe_loop_shape K py loads todo)
            as [H|[[? [? H]]|[? H]]];
          rewrite H; cbn
      end.

(** Splits on everything a step still looks at once the control point and
    the answer are known. *)
Ltac step_cases :=
  repeat (cbn;
          match goal with
          | |- context [match ?x with _ => _ end] => destruct x
          end);
  cbn.

(** ** The opening of a session *)

Lemma comprehension_all {A B : Type} (f : A -> result B) (l : list A) :
  (forall x, In x l -> exists y, f x = inr y) ->
  exists ys, comprehension f l = inr ys /\ Forall2 (fun x y => f x = inr y) l ys.
Proof.
  induction l as [|x r IH]; intros Hall.
  - exists []. split; [reflexivity | constructor].
  - destruct (Hall x (or_introl eq_refl)) as [y Hy].
    destruct IH as [ys [Hys Hrel]]; [intros z Hz; apply Hall; now right|].
    exists (y :: ys). split.
    + simpl. rewrite Hy. simpl. rewrite Hys. reflexivity.
    + now constructor.
Qed.

Lemma comprehension_raises {A B : Type} (f : A -> result B) (l : list A)
  (e : exn) (x : A) :
  In x l -> f x = inl e ->
  (forall z e', f z = inl e' -> e' = e) ->
  comprehension f l = inl e.
Proof.
  intros Hin Hx Honly. induction l as [|a r IH]; [contradiction|].
  simpl. destruct (f a) as [e'|y] eqn:Ha.
  - simpl. now rewrite (Honly a e' Ha).
  - simpl. destruct Hin as [->|Hin]; [congruence|].
    now rewrite (IH Hin).
Qed.

Lemma loc_raises_KeyError (df : markets) (label : string) (e : exn) :
  loc df label = inl e -> e = KeyError.
Proof.
  unfold loc. destruct (cells_of df label) as [|c [|c' cs]];
    [now intros [= <-] | discriminate | discriminate].
Qed.

Lemma lower_of_raises_AttributeError (py : casing) (v : looked_up) (e : exn) :
  lower_of py v = inl e -> e = AttributeError.
Proof.
  destruct v as [[| | | |s| |]|cells]; simpl; try discriminate;
    now intros [= <-].
Qed.

Lemma format_closed (t : template) (value : string) :
  template_closed t = true ->
  exists text, format t [("quoted_currency", value)] = inr text.
Proof.
  induction t as [|x r IH]; intros Hclosed.
  - now exists EmptyString.
  - simpl in Hclosed. apply andb_prop in Hclosed as [Hx Hr].
    destruct (IH Hr) as [text Htext].
    destruct x as [lit|name]; simpl.
    + rewrite Htext. now eexists.
    + apply String.eqb_eq in Hx. subst name. simpl.
      rewrite Htext. now eexists.
Qed.

Lemma Forall2_length_eq {A B : Type} (P : A -> B -> Prop) (l : list A) (m : list B) :
  Forall2 P l m -> List.length l = List.length m.
Proof. induction 1; simpl; congruence. Qed.

Lemma Forall2_compose {A B C : Type}
  (P : A -> B -> Prop) (Q : B -> C -> Prop)
  (l : list A) (m : list B) (s : list C) :
  Forall2 P l m -> Forall2 Q m s ->
  Forall2 (fun a c => exists b, P a b /\ Q b c) l s.
Proof.
  intros Hlm. revert s. induction Hlm as [|a b l m Hab Hlm IH]; intros s Hs.
  - inversion Hs. constructor.
  - inversion Hs as [|x c rest s' Hq Hrest]; subst.
    constructor; [now exists b | now apply IH].
Qed.

Lemma Forall2_In_r {A B : Type} (P : A -> B -> Prop)
  (l : list A) (m : list B) (y : B) :
  Forall2 P l m -> In y m -> exists x, In x l /\ P x y.
Proof.
  induction 1 as [|a b l m Hab Hlm IH]; [contradiction|].
  intros [<-|Hin].
  - exists a. split; [now left | exact Hab].
  - destruct (IH Hin) as [x [Hx Hp]]. exists x. split; [now right | exact Hp].
Qed.

(** What a comprehension that does not raise has computed. *)
Lemma comprehension_inr {A B : Type} (f : A -> result B)
  (l : list A) (ys : list B) :
  comprehension f l = inr ys -> Forall2 (fun x y => f x = inr y) l ys.
Proof.
  revert ys. induction l as [|x r IH]; intros ys; simpl.
  - intros [= <-]. constructor.
  - destruct (f x) as [e|y] eqn:Hx; simpl; [discriminate|].
    destruct (comprehension f r) as [e|ys'] eqn:Hr; simpl; [discriminate|].
    intros [= <-]. constructor; [exact Hx | now apply IH].
Qed.

Lemma requests_app (t1 t2 : list obs) :
  requests (t1 ++ t2) = requests t1 ++ requests t2.
Proof.
  induction t1 as [|o t1 IH]; [reflexivity|].
  destruct o; simpl; now rewrite IH.
Qed.

Lemma requests_map_Send (l : list json) : requests (map Send l) = l.
Proof. induction l as [|x l IH]; simpl; [reflexivity | now rewrite IH]. Qed.

Section Opening.

Variable K : Constants.
Variable self : LiquidAPIUserStreamDataSource.
Variable py : casing.
Variable loads : string -> result json.

(** The request for a quote currency that is a string. *)
Lemma subscribe_request_string (tp qc channel : string) :
  format (WS_USER_ACCOUNTS_SUBSCRIPTION K)
    [("quoted_currency", str_lower py qc)] = inr channel ->
  subscribe_request K py tp (Scalar (JStr qc)) = inr (subscription K channel).
Proof. intros H. unfold subscribe_request. simpl. now rewrite H. Qed.

(** A request that was built names a string quote currency. *)
Lemma subscribe_request_inr (tp : string) (v : looked_up) (request : json) :
  subscribe_request K py tp v = inr request ->
  exists qc channel,
    v = Scalar (JStr qc) /\
    format (WS_USER_ACCOUNTS_SUBSCRIPTION K)
      [("quoted_currency", str_lower py qc)] = inr channel /\
    request = subscription K channel.
Proof.
  unfold subscribe_request.
  destruct v as [[| | | |qc| |]|cells]; simpl; try discriminate.
  destruct (format _ _) as [e|channel] eqn:Hf; simpl; [discriminate|].
  intros [= <-]. now exists qc, channel.
Qed.

(** The [for] loop over pairs whose requests all build: one [Send] per
    pair, in order, then the first [recv]. *)
Lemma subscribe_loop_run (todo : list (string * looked_up)) (subs : list json) :
  Forall2 (fun x request => subscribe_request K py (fst x) (snd x) = inr request)
          todo subs ->
  fst (run K self py loads (fst (subscribe_loop K py loads todo))
         (repeat Returns (List.length todo))) = Inner AtRecv /\
  snd (subscribe_loop K py loads todo)
    ++ snd (run K self py loads (fst (subscribe_loop K py loads todo))
              (repeat Returns (List.length todo)))
  = map Send subs ++ [Recv (MESSAGE_TIMEOUT K)].
Proof.
  induction 1 as [|[tp qc] request rest subs Hreq Hrest [IHpc IHobs]].
  - split; reflexivity.
  - simpl in Hreq. simpl subscribe_loop. rewrite Hreq.
    simpl List.length. simpl repeat. rewrite run_cons. simpl fst. simpl snd.
    split; [exact IHpc|]. simpl. now rewrite IHobs.
Qed.

Lemma quoted_currencies_markets (df : markets) :
  quoted_currencies self (Markets df)
  = comprehension (loc df) (_trading_pairs self).
Proof. reflexivity. Qed.

(** Pairs that each have one row with a string: what is looked up, and
    the requests the loop will build. *)
Lemma resolved_pairs (df : markets) (pairs : list string) :
  (forall tp, In tp pairs -> exists qc, loc df tp = inr (Scalar (JStr qc))) ->
  template_closed (WS_USER_ACCOUNTS_SUBSCRIPTION K) = true ->
  exists currencies subs,
    comprehension (loc df) pairs
      = inr (map (fun qc => Scalar (JStr qc)) currencies) /\
    Forall2 (fun tp qc => loc df tp = inr (Scalar (JStr qc))) pairs currencies /\
    Forall2 (fun qc request =>
               exists channel,
                 format (WS_USER_ACCOUNTS_SUBSCRIPTION K)
                   [("quoted_currency", str_lower py qc)] = inr channel /\
                 request = subscription K channel)
            currencies subs /\
    Forall2 (fun x request =>
               subscribe_request K py (fst x) (snd x) = inr request)
            (combine pairs (map (fun qc => Scalar (JStr qc)) currencies)) subs.
Proof.
  intros Hresolve Hclosed.
  induction pairs as [|tp pairs IH].
  - exists [], []. repeat split; constructor.
  - destruct (Hresolve tp (or_introl eq_refl)) as [qc Hqc].
    destruct IH as [currencies [subs [Hcomp [Hcur [Hsubs Hloop]]]]];
      [intros z Hz; apply Hresolve; now right|].
    destruct (format_closed _ (str_lower py qc) Hclosed) as [channel Hch].
    exists (qc :: currencies), (subscription K channel :: subs).
    repeat split.
    + simpl. rewrite Hqc. simpl. rewrite Hcomp. reflexivity.
    + now constructor.
    + constructor; [now exists channel | exact Hsubs].
    + simpl. constructor; [|exact Hloop].
      simpl. now apply subscribe_request_string.
Qed.

(** A session in which every configured pair resolves to a string. *)
Lemma session_opening_run (df : markets) :
  (forall tp, In tp (_trading_pairs self) ->
              exists qc, loc df tp = inr (Scalar (JStr qc))) ->
  template_closed (WS_USER_ACCOUNTS_SUBSCRIPTION K) = true ->
  exists currencies subs,
    Forall2 (fun tp qc => loc df tp = inr (Scalar (JStr qc)))
            (_trading_pairs self) currencies /\
    Forall2 (fun qc request =>
               exists channel,
                 format (WS_USER_ACCOUNTS_SUBSCRIPTION K)
                   [("quoted_currency", str_lower py qc)] = inr channel /\
                 request = subscription K channel)
            currencies subs /\
    run K self py loads AtConnect
      (session_opening df (List.length (_trading_pairs self)))
    = (Inner AtRecv,
       Opened :: Send (auth_request K self) :: GetMarkets
         :: map Send subs ++ [Recv (MESSAGE_TIMEOUT K)]).
Proof.
  intros Hresolve Hclosed.
  destruct (resolved_pairs df (_trading_pairs self) Hresolve Hclosed)
    as [currencies [subs [Hcomp [Hcur [Hsubs Hloop]]]]].
  exists currencies, subs. split; [exact Hcur|]. split; [exact Hsubs|].
  destruct (subscribe_loop_run _ _ Hloop) as [Hpc Hobs].
  assert (Hlen : List.length
                   (combine (_trading_pairs self)
                      (map (fun qc => Scalar (JStr qc)) currencies))
                 = List.length (_trading_pairs self)).
  { rewrite length_combine, length_map, <- (Forall2_length_eq _ _ _ Hcur).
    apply Nat.min_id. }
  rewrite Hlen in Hpc, Hobs.
  unfold session_opening. simpl app.
  rewrite !run_cons. simpl step. rewrite quoted_currencies_markets, Hcomp.
  simpl fst. simpl snd. rewrite Hpc. simpl. now rewrite Hobs.
Qed.

(** A configured pair without a row ends the session before any
    subscribe request: KeyError leaves the [async with] block. *)
Lemma unresolved_pair_sends_no_subscription (df : markets) (tp : string) :
  In tp (_trading_pairs self) -> loc df tp = inl KeyError ->
  run K self py loads AtConnect [Returns; Returns; Markets df]
  = (AtExitClose (Raising KeyError),
     [Opened; Send (auth_request K self); GetMarkets; Close]).
Proof.
  intros Hin Hloc. rewrite !run_cons. simpl step.
  rewrite quoted_currencies_markets.
  rewrite (comprehension_raises (loc df) _ KeyError tp Hin Hloc
             (fun z e' => loc_raises_KeyError df z e')).
  reflexivity.
Qed.

Lemma looked_up_in_later (seen : list event) (answer : event)
  (x : string * looked_up) :
  looked_up_in self seen x -> looked_up_in self (seen ++ [answer]) x.
Proof.
  intros [Hin [df [Hdf Hloc]]]. split; [exact Hin|].
  exists df. split; [apply in_or_app; now left | exact Hloc].
Qed.

Lemma built_later (seen : list event) (more : list event) (request : json) :
  built_from_quote_currency K self py seen request ->
  built_from_quote_currency K self py (seen ++ more) request.
Proof.
  intros [tp [qc [channel [df [Htp [Hdf H]]]]]].
  exists tp, qc, channel, df. split; [exact Htp|].
  split; [apply in_or_app; now left | exact H].
Qed.

(** The loop writes requests only for what was looked up. *)
Lemma subscribe_loop_built (seen : list event)
  (todo : list (string * looked_up)) :
  Forall (looked_up_in self seen) todo ->
  pending_looked_up self seen (fst (subscribe_loop K py loads todo)) /\
  forall request,
    In (Send request) (snd (subscribe_loop K py loads todo)) ->
    built_from_quote_currency K self py seen request.
Proof.
  intros Htodo. destruct todo as [|[tp v] rest].
  - split; [exact I|]. intros request [H|[]]. discriminate H.
  - inversion Htodo as [|x xs [Htp [df [Hdf Hloc]]] Hrest]; subst.
    simpl. destruct (subscribe_request K py tp v) as [e|request] eqn:Hr.
    + split; [exact I|]. intros request [H|[]]. discriminate H.
    + split; [exact Hrest|]. intros request' [[= <-]|[]].
      destruct (subscribe_request_inr _ _ _ Hr) as [qc [channel [-> [Hf ->]]]].
      now exists tp, qc, channel, df.
Qed.

Lemma looked_up_combine (seen : list event) (df : markets)
  (pairs : list string) (vs : list looked_up) :
  In (Markets df) seen ->
  Forall2 (fun tp v => loc df tp = inr v) pairs vs ->
  incl pairs (_trading_pairs self) ->
  Forall (looked_up_in self seen) (combine pairs vs).
Proof.
  intros Hdf Hq. induction Hq as [|tp v pairs vs Hv Hq IH]; intros Hincl.
  - constructor.
  - simpl. constructor.
    + split; [apply Hincl; now left|]. now exists df.
    + apply IH. intros x Hx. apply Hincl. now right.
Qed.

(** What the comprehension of l.71-74 gives was looked up in the answer. *)
Lemma quoted_currencies_looked_up (seen : list event) (answer : event)
  (currencies : list looked_up) :
  quoted_currencies self answer = inr currencies ->
  Forall (looked_up_in self (seen ++ [answer]))
         (combine (_trading_pairs self) currencies).
Proof.
  intros Hq. unfold quoted_currencies in Hq. apply comprehension_inr in Hq.
  destruct answer as [| df | raw now | e];
    try (destruct Hq; [constructor | discriminate]).
  apply (looked_up_combine _ df); [| exact Hq | apply incl_refl].
  apply in_or_app. right. now left.
Qed.

(** Inside the generator a step writes no request and stays inside, or
    leaves the block. *)
Lemma inner_step_shape (g : inner_pc) (answer : event) :
  (exists g' t,
     step K self py loads (Inner g) answer = (Inner g', t) /\
     forall request, ~ In (Send request) t) \/
  (exists c, step K self py loads (Inner g) answer = (AtExitClose c, [Close])).
Proof.
  destruct g as [| | | c]; destruct answer as [| df | raw now | e];
    try destruct e; cbn;
    try (destruct (classify py loads raw now) as [e'|[m|]]);
    first [ right; eexists; reflexivity
          | left; do 2 eexists; split; [reflexivity|];
            intros request H;
            repeat (destruct H as [H|H]; try discriminate H);
            contradiction ].
Qed.

(** One step: every request it writes is the authentication request or
    built from a looked-up quote currency, and what is left to subscribe
    still comes from a table. *)
Lemma step_built (seen : list event) (p : pc) (answer : event) :
  pending_looked_up self seen p ->
  pending_looked_up self (seen ++ [answer])
    (fst (step K self py loads p answer)) /\
  forall request,
    In (Send request) (snd (step K self py loads p answer)) ->
    request = auth_request K self \/
    built_from_quote_currency K self py (seen ++ [answer]) request.
Proof.
  intros Hp.
  destruct p as [| | | rest | g | c | | e].
  - destruct answer as [| df | raw now | e]; simpl;
      try (split; [exact I|]; intros request [H|[H|[]]];
           [discriminate H | left; now injection H as <-]).
    destruct e; simpl; (split; [exact I|]);
      intros request H; repeat (destruct H as [H|H]; try discriminate H);
      contradiction.
  - destruct answer; simpl; (split; [exact I|]);
      intros request H; repeat (destruct H as [H|H]; try discriminate H);
      contradiction.
  - assert (Hraise : forall e,
               pending_looked_up self (seen ++ [answer])
                 (fst (leave (Raising e))) /\
               forall request,
                 In (Send request) (snd (leave (Raising e))) ->
                 request = auth_request K self \/
                 built_from_quote_currency K self py (seen ++ [answer]) request).
    { intros e. split; [exact I|]. intros request [H|[]]. discriminate H. }
    assert (Hgo : step K self py loads AtGetMarkets answer
                  = match quoted_currencies self answer with
                    | inl e => leave (Raising e)
                    | inr currencies =>
                        subscribe_loop K py loads
                          (combine (_trading_pairs self) currencies)
                    end \/
                  exists e, step K self py loads AtGetMarkets answer
                            = leave (Raising e)).
    { destruct answer as [| df | raw now | e]; [now left ..|]. right. now exists e. }
    destruct Hgo as [Hgo|[e Hgo]]; rewrite Hgo; [|apply Hraise].
    destruct (quoted_currencies self answer) as [e|currencies] eqn:Hq;
      [apply Hraise|].
    destruct (subscribe_loop_built _ _ (quoted_currencies_looked_up seen _ _ Hq))
      as [Hinv Hsent].
    split; [exact Hinv | intros request H; right; now apply Hsent].
  - assert (Hrest : Forall (looked_up_in self (seen ++ [answer])) rest).
    { eapply Forall_impl; [|exact Hp]. intros x. apply looked_up_in_later. }
    destruct (subscribe_loop_built _ _ Hrest) as [Hinv Hsent].
    destruct answer as [| df | raw now | e]; simpl;
      try (split; [exact Hinv | intros request H; right; now apply Hsent]).
    split; [exact I|]. intros request [H|[]]. discriminate H.
  - destruct (inner_step_shape g answer) as [[g' [t [Hs Hnone]]]|[c Hs]];
      rewrite Hs; (split; [exact I|]).
    + intros request H. now destruct (Hnone request).
    + intros request [H|[]]. discriminate H.
  - destruct answer as [| df | raw now | e]; try destruct c as [|e'];
      try destruct e; try destruct e'; simpl; (split; [exact I|]);
      intros request H; repeat (destruct H as [H|H]; try discriminate H);
      contradiction.
  - destruct answer; simpl; (split; [exact I|]);
      intros request H; repeat (destruct H as [H|H]; try discriminate H);
      contradiction.
  - simpl. split; [exact I|]. intros request [].
Qed.

Lemma run_built (script seen : list event) (p : pc) :
  pending_looked_up self seen p ->
  forall request,
    In (Send request) (snd (run K self py loads p script)) ->
    request = auth_request K self \/
    built_from_quote_currency K self py (seen ++ script) request.
Proof.
  revert seen p. induction script as [|answer rest IH]; intros seen p Hp request.
  - intros [].
  - rewrite run_cons. simpl snd. intros Hin.
    destruct (step_built seen p answer Hp) as [Hnext Hsent].
    apply in_app_or in Hin as [Hin|Hin].
    + destruct (Hsent request Hin) as [H|H]; [now left | right].
      change (answer :: rest) with ([answer] ++ rest).
      rewrite app_assoc. now apply built_later.
    + change (answer :: rest) with ([answer] ++ rest). rewrite app_assoc.
      exact (IH _ _ Hnext request Hin).
Qed.

End Opening.

(** Building a request fails with AttributeError (the quote currency is not
    a string) or with KeyError (a field without keyword). *)
Lemma subscribe_request_raises (K : Constants) (py : casing)
  (tp : string) (v : looked_up) (e : exn) :
  subscribe_request K py tp v = inl e -> e = AttributeError \/ e = KeyError.
Proof.
  unfold subscribe_request.
  destruct (lower_of py v) as [e'|lowered] eqn:Hl; simpl.
  - intros [= <-]. left. exact (lower_of_raises_AttributeError _ _ _ Hl).
  - destruct (format _ _) as [e'|channel] eqn:Hf; simpl; [|discriminate].
    intros [= <-]. right. revert Hf. clear.
    generalize [("quoted_currency", lowered)] as kwargs.
    induction (WS_USER_ACCOUNTS_SUBSCRIPTION K) as [|x r IH]; intros kwargs;
      [discriminate|].
    destruct x as [text|name]; simpl.
    + destruct (format r kwargs) eqn:Hr; simpl; [|discriminate].
      intros [= <-]. now apply (IH kwargs).
    + destruct (kwarg name kwargs); [|now intros [= <-]].
      destruct (format r kwargs) eqn:Hr; simpl; [|discriminate].
      intros [= <-]. now apply (IH kwargs).
Qed.

(** C4, as the code has it.  In every session the authentication request
    is the first thing written, once.  When the markets table has exactly
    one row, with a string as quote currency, for every configured pair, and
    the channel template has no field but [{quoted_currency}], exactly one
    subscribe request is written per configured pair, in the order of the
    list, and then the first frame is awaited.  When the table has no row
    for some configured pair, the lookup raises KeyError before the first
    subscribe request: the authentication request is the only request of
    the session, whatever the other pairs resolve to. *)
Theorem session_sends_auth_then_subscriptions
  (K : Constants) (self : LiquidAPIUserStreamDataSource)
  (py : casing) (loads : string -> result json) (df : markets) :
  run K self py loads AtConnect [Returns]
    = (AtSendAuth, [Opened; Send (auth_request K self)]) /\
  ((forall tp, In tp (_trading_pairs self) ->
               exists qc, loc df tp = inr (Scalar (JStr qc))) ->
   template_closed (WS_USER_ACCOUNTS_SUBSCRIPTION K) = true ->
   exists subs,
     Forall2 (fun tp request =>
                exists qc, loc df tp = inr (Scalar (JStr qc)) /\
                           subscribe_request K py tp (Scalar (JStr qc))
                           = inr request)
             (_trading_pairs self) subs /\
     run K self py loads AtConnect
       (session_opening df (List.length (_trading_pairs self)))
     = (Inner AtRecv,
        Opened :: Send (auth_request K self) :: GetMarkets
          :: map Send subs ++ [Recv (MESSAGE_TIMEOUT K)]) /\
     requests
       (snd (run K self py loads AtConnect
               (session_opening df (List.length (_trading_pairs self)))))
     = auth_request K self :: subs) /\
  (forall tp,
     In tp (_trading_pairs self) ->
     (forall v, loc df tp <> inr v) ->
     run K self py loads AtConnect [Returns; Returns; Markets df]
     = (AtExitClose (Raising KeyError),
        [Opened; Send (auth_request K self); GetMarkets; Close]) /\
     requests
       (snd (run K self py loads AtConnect [Returns; Returns; Markets df]))
     = [auth_request K self]).
Proof.
  split; [reflexivity|]. split.
  - intros Hresolve Hclosed.
    destruct (session_opening_run K self py loads df Hresolve Hclosed)
      as [currencies [subs [Hcur [Hsubs Hrun]]]].
    exists subs. split; [|split].
    + eapply Forall2_impl; [|exact (Forall2_compose _ _ _ _ _ Hcur Hsubs)].
      intros tp request [qc [Hloc [channel [Hch ->]]]].
      exists qc. split; [exact Hloc|].
      now apply subscribe_request_string.
    + exact Hrun.
    + rewrite Hrun. simpl. rewrite requests_app, requests_map_Send.
      simpl. now rewrite app_nil_r.
  - intros tp Hin Hno.
    assert (Hloc : loc df tp = inl KeyError).
    { destruct (loc df tp) as [e|v] eqn:H; [|now destruct (Hno v)].
      now rewrite (loc_raises_KeyError _ _ _ H). }
    rewrite (unresolved_pair_sends_no_subscription K self py loads df tp
               Hin Hloc).
    split; reflexivity.
Qed.

Lemma session_sends_auth_then_subscriptions_witness :
  (exists subs,
     Forall2 (fun tp request =>
                exists qc, loc sample_markets tp = inr (Scalar (JStr qc)) /\
                           subscribe_request sample_constants ascii_casing tp
                             (Scalar (JStr qc)) = inr request)
             ["ETHUSD"; "BTCUSD"] subs /\
     run sample_constants sample_source ascii_casing Json.loads AtConnect
       (session_opening sample_markets 2)
     = (Inner AtRecv,
        Opened :: Send (auth_request sample_constants sample_source)
          :: GetMarkets
          :: map Send subs ++ [Recv (MESSAGE_TIMEOUT sample_constants)]) /\
     requests
       (snd (run sample_constants sample_source ascii_casing Json.loads
               AtConnect (session_opening sample_markets 2)))
     = auth_request sample_constants sample_source :: subs) /\
  requests
    (snd (run sample_constants unlisted_source ascii_casing Json.loads
            AtConnect [Returns; Returns; Markets sample_markets]))
  = [auth_request sample_constants unlisted_source].
Proof.
  split.
  - apply (proj1 (proj2 (session_sends_auth_then_subscriptions
                           sample_constants sample_source ascii_casing
                           Json.loads sample_markets))).
    + intros tp [<-|[<-|[]]]; exists "USD"; reflexivity.
    + reflexivity.
  - apply (proj2 (proj2 (session_sends_auth_then_subscriptions
                           sample_constants unlisted_source ascii_casing
                           Json.loads sample_markets)) "XYZUSD").
    + right. now left.
    + discriminate.
Defined.

(** C4, as stated, fails: when one configured pair is not in the table,
    the list comprehension raises before any subscribe request is written,
    so the pair that does resolve gets none. *)
Lemma unlisted_pair_counterexample :
  ~ subscribes_each_resolvable_pair
      sample_constants unlisted_source ascii_casing Json.loads sample_markets.
Proof.
  intros Hclaim.
  specialize (Hclaim "ETHUSD" (Scalar (JStr "USD"))
                (subscription sample_constants "user_account_usd_orders")
                (or_introl eq_refl) eq_refl eq_refl).
  vm_compute in Hclaim.
  repeat (destruct Hclaim as [Hclaim|Hclaim]; [discriminate Hclaim|]).
  exact Hclaim.
Qed.

(** C9, as the code has it.  Over any run, every request written is the
    authentication request or a subscribe request whose channel is the
    channel template with the lower-cased quote currency of a configured
    pair put in, the quote currency being the string that a markets table
    answered during the run holds for that pair; the pair itself is no part
    of the request, so two pairs with one quote currency get the same
    request. *)
Theorem subscription_channel_from_quote_currency
  (K : Constants) (self : LiquidAPIUserStreamDataSource)
  (py : casing) (loads : string -> result json) (script : list event) :
  (forall request,
     In (Send request) (snd (listen_for_user_stream K self py loads script)) ->
     request = auth_request K self \/
     exists tp qc channel df,
       In tp (_trading_pairs self) /\
       In (Markets df) script /\
       loc df tp = inr (Scalar (JStr qc)) /\
       format (WS_USER_ACCOUNTS_SUBSCRIPTION K)
         [("quoted_currency", str_lower py qc)] = inr channel /\
       request = subscription K channel) /\
  (forall tp tp' qc,
     subscribe_request K py tp qc = subscribe_request K py tp' qc).
Proof.
  split; [|reflexivity].
  intros request Hin. unfold listen_for_user_stream in Hin.
  pose proof (run_built K self py loads script [] AtConnect I request) as H.
  destruct (run K self py loads AtConnect script) as [p t].
  destruct Hin as [Hin|Hin]; [discriminate Hin|].
  exact (H Hin).
Qed.

Lemma subscription_channel_from_quote_currency_witness :
  subscribe_request sample_constants ascii_casing "ETHUSD" (Scalar (JStr "USD"))
  = subscribe_request sample_constants ascii_casing "BTCUSD" (Scalar (JStr "USD")) /\
  (subscription sample_constants "user_account_usd_orders"
   = auth_request sample_constants sample_source \/
   exists tp qc channel df,
     In tp ["ETHUSD"; "BTCUSD"] /\
     In (Markets df) (session_opening sample_markets 2) /\
     loc df tp = inr (Scalar (JStr qc)) /\
     format (WS_USER_ACCOUNTS_SUBSCRIPTION sample_constants)
       [("quoted_currency", str_lower ascii_casing qc)] = inr channel /\
     subscription sample_constants "user_account_usd_orders"
     = subscription sample_constants channel).
Proof.
  destruct (subscription_channel_from_quote_currency sample_constants
              sample_source ascii_casing Json.loads
              (session_opening sample_markets 2))
    as [Hsent Hsame].
  split.
  - exact (Hsame "ETHUSD" "BTCUSD" (Scalar (JStr "USD"))).
  - apply Hsent. vm_compute. right. right. right. right. now left.
Defined.

(** C9, as stated, fails: for the pair ETHUSD, quoted in USD, the channel
    is [user_account_usd_orders], which does not end in [usdethusd] whatever
    the family. *)
Lemma channel_names_pair_counterexample :
  ~ channel_names_pair sample_constants ascii_casing.
Proof.
  intros Hclaim.
  destruct (Hclaim "ETHUSD" "USD"
              (subscription sample_constants "user_account_usd_orders")
              eq_refl) as [family Hfamily].
  unfold subscription, channel_of_pair in Hfamily.
  injection Hfamily as Hname.
  assert (Hends : "user_account_usd_orders" = (family ++ "_usdethusd")%string)
    by exact Hname.
  clear Hname.
  assert (Hlen : String.length family = 13).
  { apply (f_equal String.length) in Hends.
    rewrite length_append in Hends. simpl in Hends. lia. }
  pose proof (String.append_correct2 family "_usdethusd" 9) as Hget.
  rewrite <- Hends, Hlen in Hget. discriminate Hget.
Qed.

(** ** Worked examples *)

(** One session and the next: two subscriptions, an update, a heartbeat
    frame, a quiet spell, then a lost heartbeat and the reconnect. *)
Example two_sessions :
  listen_for_user_stream sample_constants sample_source ascii_casing Json.loads
    (session_opening sample_markets 2
       ++ [Frame update_frame 5%Q; Frame heartbeat_frame 6%Q]
       ++ quiet_spell ++ lost_heartbeat ++ [Returns])
  = (AtSendAuth,
     [Connect "wss://tap.liquid.com/app/LiquidTapClient";
      Opened;
      Send (auth_request sample_constants sample_source);
      GetMarkets;
      Send (subscription sample_constants "user_account_usd_orders");
      Send (subscription sample_constants "user_account_usd_orders");
      Recv 30%Q;
      Put {| trading_pair := "ETHUSD"; timestamp := 5%Q;
             payload := JObj [("event", JStr "updated");
                              ("channel", JStr "user_executions_cash_ethusd")] |};
      Recv 30%Q;
      Recv 30%Q;
      Ping; WaitPong 10%Q; Recv 30%Q;
      Ping; WaitPong 10%Q; LogWarning; Close; Close;
      Connect "wss://tap.liquid.com/app/LiquidTapClient";
      Opened;
      Send (auth_request sample_constants sample_source)]).
Proof. reflexivity. Qed.

(** A frame whose [event] is the empty string ends the session like a
    frame without [event]. *)
Example empty_event_frame_fails :
  run sample_constants sample_source ascii_casing Json.loads AtRecv
    [Frame empty_event_frame 6%Q; Returns; Returns]
  = (AtConnect,
     [Close; LogError; Sleep 30%Q;
      Connect "wss://tap.liquid.com/app/LiquidTapClient"]).
Proof. reflexivity. Qed.

(** With no pair configured the markets table is fetched and not read. *)
Example no_pairs_session :
  run sample_constants no_pairs_source ascii_casing Json.loads AtConnect
    (session_opening [] 0)
  = (Inner AtRecv,
     [Opened; Send (auth_request sample_constants no_pairs_source);
      GetMarkets; Recv 30%Q]).
Proof. reflexivity. Qed.

(** Cancellation while a subscribe request is being written: one
    [close()], by the exit of the [async with]; while a frame is awaited:
    two, the first by the generator. *)
Example cancelled_while_sending :
  run sample_constants sample_source ascii_casing Json.loads (AtSendSub []) cancellation
  = (Ended CancelledError, [Close]).
Proof. reflexivity. Qed.

Example cancelled_while_receiving :
  run sample_constants sample_source ascii_casing Json.loads AtRecv cancellation
  = (Ended CancelledError, [Close; Close]).
Proof. reflexivity. Qed.

(** A connection that cannot be made: logged, 30 seconds, next attempt. *)
Example refused_connection :
  listen_for_user_stream sample_constants sample_source ascii_casing Json.loads
    [Raises OSError; Returns]
  = (AtConnect,
     [Connect "wss://tap.liquid.com/app/LiquidTapClient";
      LogError; Sleep 30%Q;
      Connect "wss://tap.liquid.com/app/LiquidTapClient"]).
Proof. reflexivity. Qed.

(** * Further properties of the code *)

(** ** Counting along a trace *)

Lemma sleeps_app (t1 t2 : list obs) : sleeps (t1 ++ t2) = sleeps t1 + sleeps t2.
Proof. unfold sleeps. now rewrite filter_app, length_app. Qed.

Lemma connects_app (t1 t2 : list obs) :
  connects (t1 ++ t2) = connects t1 + connects t2.
Proof. unfold connects. now rewrite filter_app, length_app. Qed.

Lemma errors_app (t1 t2 : list obs) : errors (t1 ++ t2) = errors t1 + errors t2.
Proof. unfold errors. now rewrite filter_app, length_app. Qed.

Lemma close_calls_app (t1 t2 : list obs) :
  close_calls (t1 ++ t2) = close_calls t1 + close_calls t2.
Proof. unfold close_calls. now rewrite filter_app, length_app. Qed.

Lemma counts_map_Send (l : list json) :
  sleeps (map Send l) = 0 /\ connects (map Send l) = 0 /\
  errors (map Send l) = 0 /\ close_calls (map Send l) = 0.
Proof. induction l as [|x l IH]; simpl; [auto | exact IH]. Qed.

(** ** Failures and the fixed delay *)

(** X1.  Connection attempts that fail one after the other, with any
    exceptions but CancelledError: each failure is logged, followed by one
    sleep of 30 seconds and one new attempt; as many sleeps and new attempts
    as failures, and the task is still trying. *)
Theorem repeated_connect_failures
  (K : Constants) (self : LiquidAPIUserStreamDataSource)
  (py : casing) (loads : string -> result json) (es : list exn) :
  Forall (fun e => e <> CancelledError) es ->
  run K self py loads AtConnect (connect_failures es)
    = (AtConnect, flat_map (fun _ => retry K) es) /\
  sleeps (flat_map (fun _ => retry K) es) = List.length es /\
  connects (flat_map (fun _ => retry K) es) = List.length es /\
  errors (flat_map (fun _ => retry K) es) = List.length es.
Proof.
  induction 1 as [|e es He Hes [IHrun [IHs [IHc IHe]]]].
  - repeat split.
  - repeat split.
    + change (connect_failures (e :: es))
        with ([Raises e; Returns] ++ connect_failures es).
      rewrite run_app.
      assert (Hone : run K self py loads AtConnect [Raises e; Returns]
                     = (AtConnect, retry K)).
      { destruct e; try reflexivity. congruence. }
      rewrite Hone. simpl fst. simpl snd. rewrite IHrun. reflexivity.
    + change (flat_map (fun _ => retry K) (e :: es))
        with (retry K ++ flat_map (fun _ => retry K) es).
      rewrite sleeps_app, IHs. reflexivity.
    + change (flat_map (fun _ => retry K) (e :: es))
        with (retry K ++ flat_map (fun _ => retry K) es).
      rewrite connects_app, IHc. reflexivity.
    + change (flat_map (fun _ => retry K) (e :: es))
        with (retry K ++ flat_map (fun _ => retry K) es).
      rewrite errors_app, IHe. reflexivity.
Qed.

Lemma repeated_connect_failures_witness :
  run sample_constants sample_source ascii_casing Json.loads AtConnect
    (connect_failures [OSError; TimeoutError; ConnectionClosed])
  = (AtConnect,
     flat_map (fun _ => retry sample_constants)
       [OSError; TimeoutError; ConnectionClosed]) /\
  sleeps (flat_map (fun _ => retry sample_constants)
            [OSError; TimeoutError; ConnectionClosed]) = 3.
Proof.
  destruct (repeated_connect_failures sample_constants sample_source ascii_casing Json.loads
              [OSError; TimeoutError; ConnectionClosed]) as [Hrun [Hs _]].
  - repeat constructor; discriminate.
  - split; [exact Hrun | exact Hs].
Defined.

Section Invariants.

Variable K : Constants.
Variable self : LiquidAPIUserStreamDataSource.
Variable py : casing.
Variable loads : string -> result json.

Lemma disciplined_app (open : bool) (t1 t2 : list obs) :
  disciplined open (t1 ++ t2)
  = andb (disciplined open t1) (disciplined (open_after open t1) t2).
Proof.
  revert open. induction t1 as [|o t1 IH]; intros open; [reflexivity|].
  destruct o; simpl; rewrite ?IH; try reflexivity;
    now rewrite andb_assoc.
Qed.

Lemma open_after_app (open : bool) (t1 t2 : list obs) :
  open_after open (t1 ++ t2) = open_after (open_after open t1) t2.
Proof.
  revert open. induction t1 as [|o t1 IH]; intros open; [reflexivity|].
  destruct o; simpl; now rewrite ?IH.
Qed.

(** One step keeps the order and leaves the transport as the next control
    point has it. *)
Lemma step_disciplined (p : pc) (answer : event) :
  disciplined (transport_open p) (snd (step K self py loads p answer)) = true /\
  open_after (transport_open p) (snd (step K self py loads p answer))
  = transport_open (fst (step K self py loads p answer)).
Proof.
  destruct p as [| | | rest | [| | | c] | c | | e];
    destruct answer as [| df | raw now | e'];
    try destruct e'; try destruct c as [|e'']; try destruct e'';
    cbn; step_cases; loop_cases; auto.
Qed.

Lemma run_disciplined (p : pc) (script : list event) :
  disciplined (transport_open p) (snd (run K self py loads p script)) = true /\
  open_after (transport_open p) (snd (run K self py loads p script))
  = transport_open (fst (run K self py loads p script)).
Proof.
  revert p. induction script as [|answer rest IH]; intros p; [now split|].
  rewrite run_cons. simpl fst. simpl snd.
  destruct (step_disciplined p answer) as [Hd Ho].
  destruct (IH (fst (step K self py loads p answer))) as [IHd IHo].
  rewrite disciplined_app, open_after_app, Hd, Ho. now split.
Qed.

End Invariants.

(** X2.  Over any run the calls keep the order of a session: a connection
    is opened only when none is open, requests are written, frames read,
    pings sent and messages enqueued only on the open transport, and the
    task connects or sleeps only after the transport has been closed.  The
    transport is open at the end exactly when the task is suspended inside a
    session whose [close()] has not been called. *)
Theorem sessions_never_overlap
  (K : Constants) (self : LiquidAPIUserStreamDataSource)
  (py : casing) (loads : string -> result json) (script : list event) :
  disciplined false (snd (listen_for_user_stream K self py loads script)) = true /\
  open_after false (snd (listen_for_user_stream K self py loads script))
  = transport_open (fst (listen_for_user_stream K self py loads script)).
Proof.
  unfold listen_for_user_stream.
  pose proof (run_disciplined K self py loads AtConnect script) as H.
  destruct (run K self py loads AtConnect script) as [p t]. exact H.
Qed.

Section Backoff.

Variable K : Constants.
Variable self : LiquidAPIUserStreamDataSource.
Variable py : casing.
Variable loads : string -> result json.

Lemma step_backoff (p : pc) (answer : event) :
  Forall (fun o => is_sleep o = true -> o = Sleep 30%Q)
         (snd (step K self py loads p answer)) /\
  sleeps (snd (step K self py loads p answer))
  = errors (snd (step K self py loads p answer)).
Proof.
  destruct p as [| | | rest | [| | | c] | c | | e];
    destruct answer as [| df | raw now | e'];
    try destruct e'; try destruct c as [|e'']; try destruct e'';
    cbn; step_cases; loop_cases;
    (split; [repeat constructor; cbn; intros; congruence | reflexivity]).
Qed.

Lemma run_backoff (p : pc) (script : list event) :
  Forall (fun o => is_sleep o = true -> o = Sleep 30%Q)
         (snd (run K self py loads p script)) /\
  sleeps (snd (run K self py loads p script))
  = errors (snd (run K self py loads p script)).
Proof.
  revert p. induction script as [|answer rest IH]; intros p.
  - split; [constructor | reflexivity].
  - rewrite run_cons. simpl snd.
    destruct (step_backoff p answer) as [Hall Hcount].
    destruct (IH (fst (step K self py loads p answer))) as [IHall IHcount].
    split.
    + apply Forall_app. now split.
    + now rewrite sleeps_app, errors_app, Hcount, IHcount.
Qed.

End Backoff.

(** X3.  Over any run every sleep is the sleep of 30 seconds, and there
    are as many sleeps as error records: the task never waits for any other
    length of time, and never waits without having logged the failure. *)
Theorem every_sleep_is_the_fixed_delay
  (K : Constants) (self : LiquidAPIUserStreamDataSource)
  (py : casing) (loads : string -> result json) (script : list event) :
  Forall (fun o => is_sleep o = true -> o = Sleep 30%Q)
         (snd (listen_for_user_stream K self py loads script)) /\
  sleeps (snd (listen_for_user_stream K self py loads script))
  = errors (snd (listen_for_user_stream K self py loads script)).
Proof.
  unfold listen_for_user_stream.
  pose proof (run_backoff K self py loads AtConnect script) as [Hall Hcount].
  destruct (run K self py loads AtConnect script) as [p t]. simpl in *.
  split; [constructor; [discriminate | exact Hall] | exact Hcount].
Qed.

Section Ending.

Variable K : Constants.
Variable self : LiquidAPIUserStreamDataSource.
Variable py : casing.
Variable loads : string -> result json.
Hypothesis loads_not_cancelled : forall raw, loads raw <> inl CancelledError.

Lemma comprehension_raises_from {A B : Type} (f : A -> result B)
  (l : list A) (e : exn) :
  comprehension f l = inl e -> exists x, f x = inl e.
Proof.
  induction l as [|a r IH]; [discriminate|]. simpl.
  destruct (f a) as [e'|y] eqn:Ha; simpl.
  - intros [= ->]. now exists a.
  - destruct (comprehension f r) as [e'|ys]; simpl; [|discriminate].
    intros [= ->]. now apply IH.
Qed.

Lemma format_raises_KeyError (t : template) (kwargs : list (string * string))
  (e : exn) :
  format t kwargs = inl e -> e = KeyError.
Proof.
  induction t as [|x r IH]; [discriminate|].
  destruct x as [text|name]; simpl.
  - destruct (format r kwargs); simpl; [|discriminate].
    intros [= <-]. now apply IH.
  - destruct (kwarg name kwargs); [|now intros [= <-]].
    destruct (format r kwargs); simpl; [|discriminate].
    intros [= <-]. now apply IH.
Qed.

Lemma classify_not_cancelled (raw_msg : string) (now : Q) :
  classify py loads raw_msg now <> inl CancelledError.
Proof.
  unfold classify. destruct (loads raw_msg) as [e|v] eqn:Hl; simpl.
  - intros [= ->]. exact (loads_not_cancelled _ Hl).
  - destruct v; try discriminate.
    destruct (eq_str _ _).
    + unfold pair_of_channel.
      destruct (PyDict.get "channel" fields) as [[| | | |s| |]|];
        try discriminate.
      destruct (PyStr.item_last _); discriminate.
    + destruct (negb _); discriminate.
Qed.

Lemma quoted_currencies_not_cancelled (answer : event) :
  quoted_currencies self answer <> inl CancelledError.
Proof.
  intros H. apply comprehension_raises_from in H as [tp H].
  destruct answer; try discriminate.
  now apply loc_raises_KeyError in H.
Qed.

Lemma subscribe_loop_not_cancelled (todo : list (string * looked_up)) :
  cancel_pending (fst (subscribe_loop K py loads todo)) = false.
Proof.
  destruct todo as [|[tp qc] rest]; [reflexivity|]. simpl.
  destruct (subscribe_request K py tp qc) as [e|request] eqn:Hr; [|reflexivity].
  now destruct (subscribe_request_raises K py tp qc e Hr) as [->| ->].
Qed.

(** A step ends the task only on an exception it is answered with, or on
    a CancelledError already on its way out. *)
Lemma step_ends (p : pc) (answer : event) (e : exn) :
  fst (step K self py loads p answer) = Ended e ->
  p = Ended e \/ answer = Raises e \/
  (e = CancelledError /\ cancel_pending p = true).
Proof.
  destruct p as [| | | rest | [| | | c] | c | | e0];
    destruct answer as [| df | raw now | e'];
    try destruct e'; try destruct c as [|e'']; try destruct e'';
    cbn; step_cases; loop_cases;
    try discriminate; intros [= <-]; auto.
Qed.

(** A CancelledError is on its way out only if an answer raised it. *)
Lemma step_cancel_pending (p : pc) (answer : event) :
  cancel_pending (fst (step K self py loads p answer)) = true ->
  cancel_pending p = true \/ answer = Raises CancelledError.
Proof.
  destruct p as [| | | rest | [| | | c] | c | | e0];
    destruct answer as [| df | raw now | e'];
    try destruct e'; try destruct c as [|e'']; try destruct e'';
    cbn;
    try (pose proof (classify_not_cancelled raw now));
    try (pose proof (quoted_currencies_not_cancelled Returns));
    try (pose proof (quoted_currencies_not_cancelled (Markets df)));
    try (pose proof (quoted_currencies_not_cancelled (Frame raw now)));
    try rewrite subscribe_loop_not_cancelled;
    step_cases; try rewrite subscribe_loop_not_cancelled;
    try discriminate; try congruence; auto.
Qed.

Lemma run_ends (script : list event) (p : pc) (e : exn) :
  fst (run K self py loads p script) = Ended e ->
  p = Ended e \/ In (Raises e) script \/
  (e = CancelledError /\ cancel_pending p = true).
Proof.
  revert p. induction script as [|answer rest IH]; intros p; [now left|].
  rewrite run_cons. simpl fst. intros Hend.
  destruct (IH _ Hend) as [H|[H|[-> H]]].
  - destruct (step_ends _ _ _ H) as [H'|[H'|H']]; auto.
    right. left. left. now symmetry.
  - right. left. now right.
  - destruct (step_cancel_pending _ _ H) as [H'|H']; auto.
    right. left. left. now symmetry.
Qed.

End Ending.

(** X4.  The task ends only by an exception some await raised: if a run
    ends with the task raising [e], the environment answered some await
    with [e].  No exception built inside the loop (a malformed frame, an
    unlisted pair, a bad template) ever ends the task, and it never returns
    ([ujson.loads] is taken not to raise CancelledError). *)
Theorem task_ends_only_by_raised_exception
  (K : Constants) (self : LiquidAPIUserStreamDataSource)
  (py : casing) (loads : string -> result json) (script : list event) (e : exn) :
  (forall raw, loads raw <> inl CancelledError) ->
  fst (listen_for_user_stream K self py loads script) = Ended e ->
  In (Raises e) script.
Proof.
  intros Hloads Hend. unfold listen_for_user_stream in Hend.
  pose proof (run_ends K self py loads Hloads script AtConnect e) as H.
  destruct (run K self py loads AtConnect script) as [p t]. simpl in *.
  destruct (H Hend) as [H'|[H'|[_ H']]]; [discriminate | exact H' | discriminate].
Qed.

Lemma Json_loads_raises_ValueError (text : string) (e : exn) :
  Json.loads text = inl e -> e = ValueError.
Proof.
  unfold Json.loads.
  destruct (Json.read_value _ _) as [[v tail]|]; [|now intros [= <-]].
  destruct (Json.skip_space tail); [discriminate | now intros [= <-]].
Qed.

Lemma task_ends_only_by_raised_exception_witness :
  In (Raises CancelledError) [Raises OSError; Returns; Raises CancelledError].
Proof.
  apply (task_ends_only_by_raised_exception sample_constants sample_source ascii_casing Json.loads [Raises OSError; Returns; Raises CancelledError]
           CancelledError).
  - intros raw H. apply Json_loads_raises_ValueError in H. discriminate H.
  - reflexivity.
Defined.

(** ** How a session ends *)

(** X5.  Sessions that the venue drops at the first [recv], one after the
    other, the markets table having exactly one row with a string quote
    currency for every configured pair and the template no field but
    [{quoted_currency}]: each session ends without an error record and
    without a sleep, and the next connection is attempted at once; [count]
    dropped sessions make [count] new attempts and no sleep at all. *)
Theorem dropped_sessions_reconnect_without_delay
  (K : Constants) (self : LiquidAPIUserStreamDataSource)
  (py : casing) (loads : string -> result json) (df : markets) (count : nat) :
  (forall tp, In tp (_trading_pairs self) ->
              exists qc, loc df tp = inr (Scalar (JStr qc))) ->
  template_closed (WS_USER_ACCOUNTS_SUBSCRIPTION K) = true ->
  fst (run K self py loads AtConnect
         (dropped_sessions df (List.length (_trading_pairs self)) count))
    = AtConnect /\
  sleeps (snd (run K self py loads AtConnect
                 (dropped_sessions df (List.length (_trading_pairs self)) count)))
    = 0 /\
  errors (snd (run K self py loads AtConnect
                 (dropped_sessions df (List.length (_trading_pairs self)) count)))
    = 0 /\
  connects (snd (run K self py loads AtConnect
                   (dropped_sessions df (List.length (_trading_pairs self)) count)))
    = count.
Proof.
  intros Hresolve Hclosed.
  destruct (session_opening_run K self py loads df Hresolve Hclosed)
    as [currencies [subs [_ [_ Hopen]]]].
  destruct (counts_map_Send subs) as [Hs [Hc [He _]]].
  assert (Hone : run K self py loads AtConnect
                   (dropped_session df (List.length (_trading_pairs self)))
                 = (AtConnect,
                    (Opened :: Send (auth_request K self) :: GetMarkets
                       :: map Send subs ++ [Recv (MESSAGE_TIMEOUT K)])
                    ++ [Close; Close; Connect (BAEE_WS_URL K)])).
  { unfold dropped_session. rewrite run_app, Hopen. reflexivity. }
  induction count as [|count [IHpc [IHs [IHe IHc]]]]; [repeat split|].
  change (dropped_sessions df (List.length (_trading_pairs self)) (S count))
    with (dropped_session df (List.length (_trading_pairs self))
            ++ dropped_sessions df (List.length (_trading_pairs self)) count).
  rewrite run_app, Hone. cbn [fst snd].
  change (Opened :: Send (auth_request K self) :: GetMarkets
            :: map Send subs ++ [Recv (MESSAGE_TIMEOUT K)])
    with ([Opened; Send (auth_request K self); GetMarkets]
            ++ map Send subs ++ [Recv (MESSAGE_TIMEOUT K)]).
  rewrite !sleeps_app, !errors_app, !connects_app, IHs, IHe, IHc, Hs, He, Hc.
  repeat split; [exact IHpc | reflexivity ..].
Qed.

Lemma dropped_sessions_reconnect_without_delay_witness :
  fst (run sample_constants sample_source ascii_casing Json.loads AtConnect
         (dropped_sessions sample_markets 2 3)) = AtConnect /\
  sleeps (snd (run sample_constants sample_source ascii_casing Json.loads AtConnect
                 (dropped_sessions sample_markets 2 3))) = 0 /\
  connects (snd (run sample_constants sample_source ascii_casing Json.loads AtConnect
                   (dropped_sessions sample_markets 2 3))) = 3.
Proof.
  destruct (dropped_sessions_reconnect_without_delay sample_constants
              sample_source ascii_casing Json.loads sample_markets 3)
    as [Hpc [Hs [_ Hc]]].
  - intros tp [<-|[<-|[]]]; exists "USD"; reflexivity.
  - reflexivity.
  - split; [exact Hpc | split; [exact Hs | exact Hc]].
Defined.

(** X6.  An exception in the generator other than a timeout, a closed
    connection or a cancellation (at the [recv], the ping or the wait for the
    pong) is not absorbed by it: after its [finally] the exception reaches
    the handler, which logs it and sleeps 30 seconds. *)
Theorem generator_error_reaches_handler
  (K : Constants) (self : LiquidAPIUserStreamDataSource)
  (py : casing) (loads : string -> result json) (g : inner_pc) (e : exn) :
  transport_open (Inner g) = true ->
  e <> TimeoutError -> e <> ConnectionClosed -> e <> CancelledError ->
  _inner_messages K g (Raises e) = Awaiting (AtGenClose (Raising e)) [Close] /\
  run K self py loads (Inner g) [Raises e; Returns; Returns]
    = (AtSleep, [Close; Close; LogError; Sleep 30%Q]).
Proof.
  intros Hg Ht Hc Hx.
  destruct g as [| | | c]; [| | |discriminate Hg];
    destruct e; try congruence; split; reflexivity.
Qed.

Lemma generator_error_reaches_handler_witness :
  run sample_constants sample_source ascii_casing Json.loads AtPing
    [Raises OSError; Returns; Returns]
  = (AtSleep, [Close; Close; LogError; Sleep 30%Q]).
Proof.
  apply (generator_error_reaches_handler sample_constants sample_source ascii_casing Json.loads AtPing OSError); (reflexivity || discriminate).
Defined.

(** X7.  An exception other than a cancellation while the session is set
    up (writing the authentication request, fetching the markets, writing a
    subscribe request): [close()] is called once, by the exit of the
    [async with], the failure is logged, 30 seconds are slept and a new
    connection is attempted; nothing is read and nothing is enqueued. *)
Theorem setup_failure_closes_once
  (K : Constants) (self : LiquidAPIUserStreamDataSource)
  (py : casing) (loads : string -> result json) (p : pc) (e : exn) :
  p = AtSendAuth \/ p = AtGetMarkets \/ (exists rest, p = AtSendSub rest) ->
  e <> CancelledError ->
  run K self py loads p [Raises e; Returns; Returns]
    = (AtConnect, [Close; LogError; Sleep 30%Q; Connect (BAEE_WS_URL K)]).
Proof.
  intros [->|[->|[rest ->]]] He; destruct e; try congruence; reflexivity.
Qed.

Lemma setup_failure_closes_once_witness :
  run sample_constants sample_source ascii_casing Json.loads
    (AtSendSub [("BTCUSD", Scalar (JStr "USD"))]) [Raises ConnectionClosed; Returns; Returns]
  = (AtConnect,
     [Close; LogError; Sleep 30%Q; Connect (BAEE_WS_URL sample_constants)]).
Proof.
  apply (setup_failure_closes_once sample_constants sample_source ascii_casing Json.loads
           (AtSendSub [("BTCUSD", Scalar (JStr "USD"))]) ConnectionClosed).
  - right. right. now exists [("BTCUSD", Scalar (JStr "USD"))].
  - discriminate.
Defined.

(** X8.  If a [close()] awaited while a CancelledError is on its way out
    raises an exception of its own, that exception takes the place of the
    cancellation: the handler logs it and sleeps, and the task goes on
    instead of ending. *)
Theorem close_failure_replaces_cancellation
  (K : Constants) (self : LiquidAPIUserStreamDataSource)
  (py : casing) (loads : string -> result json) (p : pc) (e : exn) :
  transport_open p = true ->
  e <> CancelledError ->
  suspended (fst (run K self py loads p [Raises CancelledError; Raises e; Returns]))
    = true /\
  sleeps (snd (run K self py loads p [Raises CancelledError; Raises e; Returns]))
    = 1 /\
  errors (snd (run K self py loads p [Raises CancelledError; Raises e; Returns]))
    = 1.
Proof.
  intros Hp He.
  destruct p as [| | | rest | [| | | c] | c | | e0]; try discriminate Hp;
    destruct e; try congruence; repeat split.
Qed.

Lemma close_failure_replaces_cancellation_witness :
  suspended
    (fst (run sample_constants sample_source ascii_casing Json.loads AtRecv
            [Raises CancelledError; Raises OSError; Returns])) = true /\
  sleeps
    (snd (run sample_constants sample_source ascii_casing Json.loads AtRecv
            [Raises CancelledError; Raises OSError; Returns])) = 1.
Proof.
  destruct (close_failure_replaces_cancellation sample_constants sample_source ascii_casing Json.loads AtRecv OSError eq_refl) as [Hp [Hs _]].
  - discriminate.
  - split; [exact Hp | exact Hs].
Defined.

(** ** The trading pair of a channel *)

Lemma split_single (sep : ascii) (s : string) :
  PyStr.mem_char sep s = false -> PyStr.split sep s = [s].
Proof.
  induction s as [|c r IH]; [reflexivity|]. simpl.
  destruct (Ascii.eqb c sep); [discriminate|]. simpl.
  intros H. now rewrite (IH H).
Qed.

Lemma split_sep_not_single (sep : ascii) (front tail piece : string) :
  PyStr.split sep (front ++ String sep tail) <> [piece].
Proof.
  revert piece. induction front as [|c f IH]; intros piece; simpl.
  - rewrite Ascii.eqb_refl. intros [= _ H]. now apply split_not_nil in H.
  - destruct (Ascii.eqb c sep).
    + intros [= _ H]. now apply split_not_nil in H.
    + destruct (PyStr.split sep (f ++ String sep tail)) as [|p ps] eqn:Hs.
      * now apply split_not_nil in Hs.
      * intros [= _ ->]. now apply (IH p).
Qed.

Lemma item_last_cons {A : Type} (x : A) (l : list A) :
  l <> [] -> PyStr.item_last (x :: l) = PyStr.item_last l.
Proof. destruct l; [congruence | reflexivity]. Qed.

(** What stands before the last separator does not matter. *)
Lemma item_last_split_append (sep : ascii) (front tail : string) :
  PyStr.item_last (PyStr.split sep (front ++ String sep tail))
  = PyStr.item_last (PyStr.split sep tail).
Proof.
  induction front as [|c f IH]; simpl.
  - rewrite Ascii.eqb_refl. apply item_last_cons, split_not_nil.
  - destruct (Ascii.eqb c sep).
    + rewrite item_last_cons by apply split_not_nil. exact IH.
    + pose proof (split_sep_not_single sep f tail) as Hns.
      pose proof (split_not_nil sep (f ++ String sep tail)) as Hnn.
      destruct (PyStr.split sep (f ++ String sep tail)) as [|p ps].
      * now destruct Hnn.
      * destruct ps as [|q qs]; [now destruct (Hns p)|].
        rewrite <- IH. reflexivity.
Qed.

Lemma upper_char_idempotent (c : ascii) :
  PyStr.upper_char (PyStr.upper_char c) = PyStr.upper_char c.
Proof.
  destruct c as [[] [] [] [] [] [] [] []]; reflexivity.
Qed.

Lemma upper_char_underscore (c : ascii) :
  Ascii.eqb (PyStr.upper_char c) "_" = Ascii.eqb c "_".
Proof.
  destruct c as [[] [] [] [] [] [] [] []]; reflexivity.
Qed.

Lemma upper_char_keeps_ascii (c : ascii) :
  Nat.ltb (nat_of_ascii (PyStr.upper_char c)) 128
  = Nat.ltb (nat_of_ascii c) 128.
Proof.
  destruct c as [[] [] [] [] [] [] [] []]; reflexivity.
Qed.

Lemma ascii_upper_idempotent (s : string) :
  PyStr.ascii_upper (PyStr.ascii_upper s) = PyStr.ascii_upper s.
Proof.
  induction s as [|c r IH]; [reflexivity|].
  unfold PyStr.ascii_upper in *. simpl. now rewrite upper_char_idempotent, IH.
Qed.

Lemma ascii_upper_keeps_underscores (s : string) :
  PyStr.mem_char "_" (PyStr.ascii_upper s) = PyStr.mem_char "_" s.
Proof.
  induction s as [|c r IH]; [reflexivity|].
  unfold PyStr.ascii_upper in *. simpl. now rewrite upper_char_underscore, IH.
Qed.

Lemma ascii_upper_keeps_ascii (s : string) :
  PyStr.is_ascii (PyStr.ascii_upper s) = PyStr.is_ascii s.
Proof.
  induction s as [|c r IH]; [reflexivity|].
  unfold PyStr.ascii_upper in *. simpl PyStr.map_chars.
  change (PyStr.is_ascii (String ?x ?y))
    with (andb (Nat.ltb (nat_of_ascii x) 128) (PyStr.is_ascii y)).
  cbn [PyStr.is_ascii]. now rewrite upper_char_keeps_ascii, IH.
Qed.

(** The pieces of an ASCII string are ASCII. *)
Lemma split_is_ascii (sep : ascii) (s : string) :
  PyStr.is_ascii s = true ->
  Forall (fun piece => PyStr.is_ascii piece = true) (PyStr.split sep s).
Proof.
  induction s as [|c r IH]; intros Hs.
  - now constructor.
  - cbn [PyStr.is_ascii] in Hs. apply andb_prop in Hs as [Hc Hr].
    specialize (IH Hr). cbn [PyStr.split].
    destruct (Ascii.eqb c sep).
    + now constructor.
    + destruct (PyStr.split sep r) as [|piece pieces].
      * constructor; [|constructor]. cbn [PyStr.is_ascii]. now rewrite Hc.
      * inversion IH as [|? ? Hpiece Hrest]; subst.
        constructor; [|assumption]. cbn [PyStr.is_ascii]. now rewrite Hc, Hpiece.
Qed.

(** X9.  The trading pair read from a channel name is decided by what
    follows the last underscore: if [segment] holds no underscore, the
    channel [segment] and every channel [front_segment] give [segment]
    upper-cased by [str.upper], whatever [front] is. *)
Theorem pair_of_channel_suffix
  (py : casing) (front segment : string) :
  PyStr.mem_char "_" segment = false ->
  pair_of_channel py (Some (JStr segment)) = inr (str_upper py segment) /\
  pair_of_channel py (Some (JStr (front ++ String "_" segment)))
    = inr (str_upper py segment).
Proof.
  intros Hseg. unfold pair_of_channel.
  rewrite item_last_split_append, (split_single _ _ Hseg). now split.
Qed.

Lemma pair_of_channel_suffix_witness :
  pair_of_channel ascii_casing (Some (JStr "btcjpy")) = inr "BTCJPY" /\
  pair_of_channel ascii_casing
    (Some (JStr ("user_executions_cash" ++ String "_" "btcjpy")))
    = inr "BTCJPY".
Proof.
  apply (pair_of_channel_suffix ascii_casing "user_executions_cash" "btcjpy").
  reflexivity.
Defined.

(** X10.  On a channel that is a string the extraction never fails (no
    IndexError), whatever the name; on a channel that is missing or is not
    a string it raises AttributeError.  [str.upper] being the ASCII mapping
    on ASCII text: the empty name and every name that ends with an
    underscore give the empty trading pair, and the trading pair of an ASCII
    name holds no underscore and is left as it is by another
    upper-casing. *)
Theorem pair_of_channel_total (py : casing) :
  (forall name, exists pair, pair_of_channel py (Some (JStr name)) = inr pair) /\
  (forall channel,
     match channel with
     | Some (JStr _) => True
     | _ => pair_of_channel py channel = inl AttributeError
     end) /\
  (ascii_faithful py ->
   pair_of_channel py (Some (JStr EmptyString)) = inr EmptyString /\
   (forall front,
      pair_of_channel py (Some (JStr (front ++ "_"))) = inr EmptyString) /\
   (forall name,
      PyStr.is_ascii name = true ->
      exists pair,
        pair_of_channel py (Some (JStr name)) = inr pair /\
        PyStr.mem_char "_" pair = false /\
        str_upper py pair = pair)).
Proof.
  split; [|split].
  - intros name.
    destruct (split_last_segment name) as [segment [Hlast _]].
    exists (str_upper py segment). unfold pair_of_channel. now rewrite Hlast.
  - intros [[| | | | | |]|]; trivial.
  - intros Hpy.
    assert (Hempty : str_upper py EmptyString = EmptyString)
      by exact (proj1 (Hpy EmptyString eq_refl)).
    split; [|split].
    + unfold pair_of_channel. simpl. now rewrite Hempty.
    + intros front. unfold pair_of_channel.
      rewrite item_last_split_append. simpl. now rewrite Hempty.
    + intros name Hname.
      destruct (split_last_segment name) as [segment [Hlast [Hno _]]].
      assert (Hseg : PyStr.is_ascii segment = true).
      { pose proof (split_is_ascii "_" name Hname) as Hall.
        rewrite Forall_forall in Hall. apply Hall.
        destruct (item_last_some (PyStr.split "_" name) (split_not_nil _ _))
          as [x [Hx Hin]].
        rewrite Hlast in Hx. now injection Hx as <-. }
      exists (str_upper py segment). unfold pair_of_channel. rewrite Hlast.
      split; [reflexivity|].
      rewrite (proj1 (Hpy segment Hseg)).
      split; [now rewrite ascii_upper_keeps_underscores|].
      rewrite (proj1 (Hpy (PyStr.ascii_upper segment)
                        (eq_trans (ascii_upper_keeps_ascii segment) Hseg))).
      apply ascii_upper_idempotent.
Qed.

Lemma pair_of_channel_total_witness :
  pair_of_channel ascii_casing (Some (JStr EmptyString)) = inr EmptyString /\
  exists pair,
    pair_of_channel ascii_casing (Some (JStr "user_executions_cash_ethusd"))
      = inr pair /\
    PyStr.mem_char "_" pair = false /\
    str_upper ascii_casing pair = pair.
Proof.
  destruct (proj2 (proj2 (pair_of_channel_total ascii_casing))
              ascii_casing_faithful) as [Hempty [_ Hascii]].
  split; [exact Hempty|].
  exact (Hascii "user_executions_cash_ethusd" eq_refl).
Defined.

(** ** Frames that are not objects, and sessions that live on *)

(** X11.  A frame that [ujson.loads] cannot decode, or that decodes to
    anything but an object (an array, a string, a number, true, false or
    null), is not skipped: nothing is enqueued, the session is closed, the
    failure is logged and after 30 seconds a new connection is
    attempted. *)
Theorem frame_not_an_object_fails
  (K : Constants) (self : LiquidAPIUserStreamDataSource)
  (py : casing) (loads : string -> result json) (raw_msg : string) (now : Q) :
  (exists e, loads raw_msg = inl e /\ e <> CancelledError) \/
  (exists v, loads raw_msg = inr v /\ forall fields, v <> JObj fields) ->
  forwarded py loads (Frame raw_msg now) = [] /\
  run K self py loads AtRecv [Frame raw_msg now; Returns; Returns]
    = (AtConnect, [Close; LogError; Sleep 30%Q; Connect (BAEE_WS_URL K)]).
Proof.
  intros [[e [Hl He]]|[v [Hl Hv]]].
  - assert (Hc : classify py loads raw_msg now = inl e)
      by (unfold classify; now rewrite Hl).
    cbn. rewrite Hc. split; [reflexivity|].
    destruct e; try congruence; reflexivity.
  - assert (Hc : classify py loads raw_msg now = inl AttributeError).
    { unfold classify. rewrite Hl. simpl.
      destruct v; try reflexivity. now destruct (Hv fields). }
    cbn. rewrite Hc. split; reflexivity.
Qed.

Lemma frame_not_an_object_fails_witness :
  forwarded ascii_casing Json.loads (Frame "[1, 2]" 7%Q) = [] /\
  run sample_constants sample_source ascii_casing Json.loads AtRecv
    [Frame "[1, 2]" 7%Q; Returns; Returns]
  = (AtConnect,
     [Close; LogError; Sleep 30%Q; Connect (BAEE_WS_URL sample_constants)]).
Proof.
  apply (frame_not_an_object_fails sample_constants sample_source ascii_casing Json.loads
           "[1, 2]" 7%Q).
  right. exists (JArr [JInt 1; JInt 2]). split; [reflexivity | discriminate].
Defined.

(** X12.  While every frame classifies without raising and every message
    timeout is answered by a pong in time, in any order and any number, the
    session lives on: the task is waiting for a frame on the same transport,
    nothing has been closed, slept or reconnected, and the queue holds the
    message of every update frame, in the order of arrival. *)
Theorem healthy_session_lives_on
  (K : Constants) (self : LiquidAPIUserStreamDataSource)
  (py : casing) (loads : string -> result json) (script : list event) :
  healthy py loads script ->
  fst (run K self py loads AtRecv script) = Inner AtRecv /\
  close_calls (snd (run K self py loads AtRecv script)) = 0 /\
  sleeps (snd (run K self py loads AtRecv script)) = 0 /\
  connects (snd (run K self py loads AtRecv script)) = 0 /\
  queue (snd (run K self py loads AtRecv script))
    = flat_map (forwarded py loads) script.
Proof.
  induction 1 as [| rest Hrest [IHpc [IHcl [IHs [IHc IHq]]]]
                  | raw now outcome rest Hc Hrest [IHpc [IHcl [IHs [IHc IHq]]]]].
  - repeat split.
  - rewrite run_app.
    change (run K self py loads AtRecv quiet_spell)
      with (Inner AtRecv, keepalive K).
    cbn [fst snd].
    rewrite close_calls_app, sleeps_app, connects_app, queue_app,
      IHcl, IHs, IHc, IHq.
    repeat split; (exact IHpc || reflexivity).
  - rewrite run_cons.
    assert (Hs : step K self py loads AtRecv (Frame raw now)
                 = (Inner AtRecv,
                    map Put (forwarded py loads (Frame raw now))
                      ++ [Recv (MESSAGE_TIMEOUT K)])).
    { cbn. rewrite Hc. now destruct outcome. }
    rewrite Hs. cbn [fst snd].
    rewrite !close_calls_app, !sleeps_app, !connects_app, !queue_app,
      IHcl, IHs, IHc, IHq.
    cbn [flat_map].
    destruct (forwarded py loads (Frame raw now)) as [|m [|m' ms]] eqn:Hf;
      try (repeat split; (exact IHpc || reflexivity)).
    pose proof (forwarded_at_most_one py loads (Frame raw now)) as Hlen.
    rewrite Hf in Hlen. simpl in Hlen. lia.
Qed.

Lemma healthy_session_lives_on_witness :
  fst (run sample_constants sample_source ascii_casing Json.loads AtRecv
         (Frame heartbeat_frame 1%Q
            :: quiet_spell ++ [Frame update_frame 2%Q])) = Inner AtRecv /\
  queue (snd (run sample_constants sample_source ascii_casing Json.loads AtRecv
                (Frame heartbeat_frame 1%Q
                   :: quiet_spell ++ [Frame update_frame 2%Q])))
  = flat_map (forwarded ascii_casing Json.loads)
      (Frame heartbeat_frame 1%Q :: quiet_spell ++ [Frame update_frame 2%Q]).
Proof.
  destruct (healthy_session_lives_on sample_constants sample_source ascii_casing Json.loads
              (Frame heartbeat_frame 1%Q
                 :: quiet_spell ++ [Frame update_frame 2%Q]))
    as [Hpc [_ [_ [_ Hq]]]].
  - apply (healthy_frame ascii_casing Json.loads heartbeat_frame 1%Q None); [reflexivity|].
    apply healthy_quiet.
    eapply (healthy_frame ascii_casing Json.loads update_frame 2%Q); [reflexivity|].
    apply healthy_nil.
  - split; [exact Hpc | exact Hq].
Defined.

(** ** Edges of the session opening *)

Lemma format_open (t : template) (value : string) :
  template_closed t = false ->
  format t [("quoted_currency", value)] = inl KeyError.
Proof.
  induction t as [|x r IH]; [discriminate|].
  destruct x as [text|name].
  - change (template_closed (Lit text :: r)) with (template_closed r).
    intros Hr.
    change (format (Lit text :: r) [("quoted_currency", value)])
      with (rest <- format r [("quoted_currency", value)] ;;
            ok (text ++ rest)%string).
    now rewrite (IH Hr).
  - change (template_closed (Field name :: r))
      with (andb (String.eqb name "quoted_currency") (template_closed r)).
    change (format (Field name :: r) [("quoted_currency", value)])
      with (match (if String.eqb "quoted_currency" name
                   then Some value else None) with
            | None => raise KeyError
            | Some v => rest <- format r [("quoted_currency", value)] ;;
                        ok (v ++ rest)%string
            end).
    rewrite (String.eqb_sym "quoted_currency" name).
    destruct (String.eqb name "quoted_currency"); [|reflexivity].
    intros Hr. now rewrite (IH Hr).
Qed.

(** X13.  If the channel template names a field other than
    [{quoted_currency}], the one keyword the code passes to [format], the
    first subscribe request cannot be built: with at least one pair
    configured, each with a row in the table, every session ends after the
    markets are fetched (with the KeyError of [format], or the
    AttributeError of [lower] if the first quote currency is no string),
    without a subscribe request and without a frame being awaited; the
    failure is logged, 30 seconds are slept and the next session begins the
    same way. *)
Theorem foreign_template_field_ends_session
  (K : Constants) (self : LiquidAPIUserStreamDataSource)
  (py : casing) (loads : string -> result json) (df : markets) :
  template_closed (WS_USER_ACCOUNTS_SUBSCRIPTION K) = false ->
  _trading_pairs self <> [] ->
  (forall tp, In tp (_trading_pairs self) -> exists qc, loc df tp = inr qc) ->
  run K self py loads AtConnect [Returns; Returns; Markets df; Returns; Returns]
  = (AtConnect,
     [Opened; Send (auth_request K self); GetMarkets; Close;
      LogError; Sleep 30%Q; Connect (BAEE_WS_URL K)]).
Proof.
  intros Hopen Hpairs Hresolve.
  destruct (comprehension_all (loc df) (_trading_pairs self) Hresolve)
    as [currencies [Hcomp Hcur]].
  rewrite !run_cons. cbn [step fst snd].
  rewrite quoted_currencies_markets, Hcomp.
  destruct Hcur as [|tp qc pairs currencies Hloc Hrest]; [congruence|].
  cbn [combine subscribe_loop].
  destruct (subscribe_request K py tp qc) as [e|request] eqn:Hr.
  - destruct (subscribe_request_raises K py tp qc e Hr) as [->| ->];
      reflexivity.
  - destruct (subscribe_request_inr K py tp qc request Hr)
      as [s [channel [_ [Hf _]]]].
    rewrite (format_open _ _ Hopen) in Hf. discriminate Hf.
Qed.

Lemma foreign_template_field_ends_session_witness :
  run {| BAEE_WS_URL := "wss://tap.liquid.com/app/LiquidTapClient";
         WS_AUTH_REQUEST_EVENT := "quoine:auth_request";
         WS_PUSHER_SUBSCRIBE_EVENT := "pusher:subscribe";
         WS_USER_ACCOUNTS_SUBSCRIPTION :=
           [Lit "user_executions_cash_"; Field "currency_pair_code"];
         MESSAGE_TIMEOUT := 30%Q;
         PING_TIMEOUT := 10%Q |}
      sample_source ascii_casing Json.loads AtConnect
      [Returns; Returns; Markets sample_markets; Returns; Returns]
  = (AtConnect,
     [Opened; Send (auth_request sample_constants sample_source); GetMarkets;
      Close; LogError; Sleep 30%Q;
      Connect "wss://tap.liquid.com/app/LiquidTapClient"]).
Proof.
  apply (foreign_template_field_ends_session
           {| BAEE_WS_URL := "wss://tap.liquid.com/app/LiquidTapClient";
              WS_AUTH_REQUEST_EVENT := "quoine:auth_request";
              WS_PUSHER_SUBSCRIBE_EVENT := "pusher:subscribe";
              WS_USER_ACCOUNTS_SUBSCRIPTION :=
                [Lit "user_executions_cash_"; Field "currency_pair_code"];
              MESSAGE_TIMEOUT := 30%Q;
              PING_TIMEOUT := 10%Q |}
           sample_source ascii_casing Json.loads sample_markets).
  - reflexivity.
  - discriminate.
  - intros tp [<-|[<-|[]]]; exists (Scalar (JStr "USD")); reflexivity.
Defined.

(** X14.  If the markets table lacks one configured pair, the session
    ends with KeyError as soon as the table is there: the authentication
    request is the only request written, the failure is logged, 30 seconds
    are slept and a new connection is attempted; the pairs the table does
    list are not subscribed. *)
Theorem unlisted_pair_ends_session
  (K : Constants) (self : LiquidAPIUserStreamDataSource)
  (py : casing) (loads : string -> result json) (df : markets) (tp : string) :
  In tp (_trading_pairs self) ->
  (forall qc, loc df tp <> inr qc) ->
  run K self py loads AtConnect [Returns; Returns; Markets df; Returns; Returns]
  = (AtConnect,
     [Opened; Send (auth_request K self); GetMarkets; Close;
      LogError; Sleep 30%Q; Connect (BAEE_WS_URL K)]) /\
  requests
    (snd (run K self py loads AtConnect
            [Returns; Returns; Markets df; Returns; Returns]))
  = [auth_request K self].
Proof.
  intros Hin Hno.
  assert (Hloc : loc df tp = inl KeyError).
  { destruct (loc df tp) as [e|qc] eqn:H; [|now destruct (Hno qc)].
    now rewrite (loc_raises_KeyError _ _ _ H). }
  assert (Hrun : run K self py loads AtConnect
                   [Returns; Returns; Markets df; Returns; Returns]
                 = (AtConnect,
                    [Opened; Send (auth_request K self); GetMarkets; Close;
                     LogError; Sleep 30%Q; Connect (BAEE_WS_URL K)])).
  { change [Returns; Returns; Markets df; Returns; Returns]
      with ([Returns; Returns; Markets df] ++ [Returns; Returns]).
    rewrite run_app,
      (unresolved_pair_sends_no_subscription K self py loads df tp Hin Hloc).
    reflexivity. }
  split; [exact Hrun | now rewrite Hrun].
Qed.

Lemma unlisted_pair_ends_session_witness :
  requests
    (snd (run sample_constants unlisted_source ascii_casing Json.loads AtConnect
            [Returns; Returns; Markets sample_markets; Returns; Returns]))
  = [auth_request sample_constants unlisted_source].
Proof.
  refine (proj2 (unlisted_pair_ends_session sample_constants unlisted_source ascii_casing Json.loads sample_markets "XYZUSD" _ _)).
  - right. now left.
  - discriminate.
Defined.

(** X15.  With no trading pair configured (the default of the
    constructor) the markets are fetched and their answer is not looked at:
    whatever comes back, an empty table or something that is no table at
    all, the session goes on to wait for frames with the authentication
    request as its only request. *)
Theorem no_pairs_ignores_markets
  (K : Constants) (self : LiquidAPIUserStreamDataSource)
  (py : casing) (loads : string -> result json) (answer : event) :
  _trading_pairs self = [] ->
  (forall e, answer <> Raises e) ->
  run K self py loads AtConnect [Returns; Returns; answer]
  = (Inner AtRecv,
     [Opened; Send (auth_request K self); GetMarkets;
      Recv (MESSAGE_TIMEOUT K)]).
Proof.
  intros Hpairs Hanswer.
  assert (Hs : step K self py loads AtGetMarkets answer
               = (Inner AtRecv, [Recv (MESSAGE_TIMEOUT K)])).
  { destruct answer as [| df | raw now | e]; cbn;
      unfold quoted_currencies; rewrite ?Hpairs; try reflexivity.
    now destruct (Hanswer e). }
  change [Returns; Returns; answer] with ([Returns; Returns] ++ [answer]).
  rewrite run_app.
  change (run K self py loads AtConnect [Returns; Returns])
    with (AtGetMarkets, [Opened; Send (auth_request K self); GetMarkets]).
  cbn [fst snd]. rewrite run_cons, Hs. reflexivity.
Qed.

Lemma no_pairs_ignores_markets_witness :
  run sample_constants no_pairs_source ascii_casing Json.loads AtConnect
    [Returns; Returns; Returns]
  = (Inner AtRecv,
     [Opened; Send (auth_request sample_constants no_pairs_source); GetMarkets;
      Recv (MESSAGE_TIMEOUT sample_constants)]).
Proof.
  apply (no_pairs_ignores_markets sample_constants no_pairs_source ascii_casing Json.loads
           Returns); [reflexivity | discriminate].
Defined.

(** ** The class logger *)

Lemma logger_cached {Logger : Type} (module_logger cached : Logger)
  (n : nat) (cls : class_state Logger) :
  _lausds_logger cls = Some cached ->
  logger_calls module_logger n cls = (repeat cached n, cls).
Proof.
  intros Hc. induction n as [|n IH]; [reflexivity|].
  simpl. unfold logger. rewrite Hc, IH. reflexivity.
Qed.

(** X16.  The logger is made once: however many times [logger()] is
    called on the class as defined, [logging.getLogger] is called by the
    first call only and every call returns that one logger; once the class
    holds a logger, calls return it and leave the class as it is, whatever
    [logging.getLogger] would return by then. *)
Theorem logger_made_once
  {Logger : Type} (module_logger : Logger) (n : nat) :
  logger_calls module_logger (S n) (class_defined Logger)
    = (repeat module_logger (S n),
       {| _lausds_logger := Some module_logger; getLogger_calls := 1 |}) /\
  (forall (other cached : Logger) (cls : class_state Logger),
     _lausds_logger cls = Some cached ->
     logger_calls other n cls = (repeat cached n, cls)).
Proof.
  split.
  - simpl. rewrite (logger_cached module_logger module_logger n); reflexivity.
  - intros other cached cls Hc. now apply logger_cached.
Qed.

Lemma logger_made_once_witness :
  logger_calls "other" 3
    {| _lausds_logger := Some "hummingbot.market.liquid"; getLogger_calls := 1 |}
  = (repeat "hummingbot.market.liquid" 3,
     {| _lausds_logger := Some "hummingbot.market.liquid"; getLogger_calls := 1 |}).
Proof.
  apply (proj2 (logger_made_once "hummingbot.market.liquid" 3)). reflexivity.
Defined.

(** X17.  If the first configured pair has a row in the markets table but
    no single string as quote currency (its label repeats, so that [.loc]
    gives a Series, or its cell holds something else), [lower] raises
    AttributeError at the first turn of the loop: with every configured pair
    in the table, the authentication request is the only request of the
    session, the failure is logged, 30 seconds are slept and a new
    connection is attempted. *)
Theorem unusable_quote_currency_ends_session
  (K : Constants) (self : LiquidAPIUserStreamDataSource)
  (py : casing) (loads : string -> result json) (df : markets)
  (tp : string) (rest : list string) (v : looked_up) :
  _trading_pairs self = tp :: rest ->
  (forall tp', In tp' (_trading_pairs self) -> exists v', loc df tp' = inr v') ->
  loc df tp = inr v ->
  (forall qc, v <> Scalar (JStr qc)) ->
  subscribe_request K py tp v = inl AttributeError /\
  run K self py loads AtConnect [Returns; Returns; Markets df; Returns; Returns]
  = (AtConnect,
     [Opened; Send (auth_request K self); GetMarkets; Close;
      LogError; Sleep 30%Q; Connect (BAEE_WS_URL K)]).
Proof.
  intros Hpairs Hrows Hloc Hv.
  assert (Hreq : subscribe_request K py tp v = inl AttributeError).
  { unfold subscribe_request.
    destruct v as [[| | | |qc| |]|cells]; try reflexivity.
    now destruct (Hv qc). }
  split; [exact Hreq|].
  destruct (comprehension_all (loc df) (_trading_pairs self) Hrows)
    as [currencies [Hcomp Hcur]].
  rewrite !run_cons. cbn [step fst snd].
  rewrite quoted_currencies_markets, Hcomp.
  rewrite Hpairs in Hcur.
  inversion Hcur as [|x v' xs vs Hx Hxs]; subst.
  rewrite Hloc in Hx. injection Hx as <-.
  rewrite Hpairs. cbn [combine subscribe_loop]. rewrite Hreq. reflexivity.
Qed.

Lemma unusable_quote_currency_ends_session_witness :
  run sample_constants sample_source ascii_casing Json.loads AtConnect
    [Returns; Returns;
     Markets [("ETHUSD", JStr "USD"); ("BTCUSD", JStr "USD");
              ("ETHUSD", JStr "USD")];
     Returns; Returns]
  = (AtConnect,
     [Opened; Send (auth_request sample_constants sample_source); GetMarkets;
      Close; LogError; Sleep 30%Q; Connect (BAEE_WS_URL sample_constants)]).
Proof.
  refine (proj2 (unusable_quote_currency_ends_session sample_constants
                   sample_source ascii_casing Json.loads
                   [("ETHUSD", JStr "USD"); ("BTCUSD", JStr "USD");
                    ("ETHUSD", JStr "USD")]
                   "ETHUSD" ["BTCUSD"] (Series [JStr "USD"; JStr "USD"])
                   eq_refl _ eq_refl _)).
  - intros tp' [<-|[<-|[]]]; eexists; reflexivity.
  - discriminate.
Defined.
